(** * The FT80x character driver (drivers/lcd/ft80x_base.c)

    A shallow embedding of the driver's lifecycle methods (open, close,
    unlink, destroy), of its command dispatcher (write, ioctl), of the
    bring-up sequence (ft80x_initialize) and of ft80x_register.

    The driver is modelled as it is compiled with
    CONFIG_DISABLE_PSEUDOFS_OPERATIONS undefined and with DEBUGASSERT
    compiled out.  Everything the driver does to the outside (semaphore
    calls, accesses to the two lifecycle fields, heap calls, transport
    calls) is appended to a log, oldest entry first. *)

From Stdlib Require Import ZArith List Bool Lia String DecimalString.
Import ListNotations.
Local Open Scope Z_scope.

(** ** errno values and C integer types *)

Definition OK : Z := 0.
Definition ENOMEM : Z := 12.
Definition ENODEV : Z := 19.
Definition EINVAL : Z := 22.
Definition EMFILE : Z := 24.
Definition ENOTTY : Z := 25.

Definition uint8 (x : Z) : Z := x mod 2 ^ 8.
Definition uint32 (x : Z) : Z := x mod 2 ^ 32.

(** ** Build configuration (the CONFIG_ switches the file tests) *)

Inductive chip_t := CONFIG_LCD_FT800 | CONFIG_LCD_FT801.
Inductive display_t := CONFIG_LCD_FT80X_WQVGA | CONFIG_LCD_FT80X_QVGA.

Record config_t := {
  chip : chip_t;
  display : display_t;
  CONFIG_DEBUG_LCD_INFO : bool   (* lcdinfo() evaluates its arguments *)
}.

Definition DEVNAME (c : chip_t) : string :=
  match c with
  | CONFIG_LCD_FT800 => "/dev/ft800"
  | CONFIG_LCD_FT801 => "/dev/ft801"
  end.

Definition ROMID (c : chip_t) : Z :=
  match c with
  | CONFIG_LCD_FT800 => 0x01000800
  | CONFIG_LCD_FT801 => 0x01000801
  end.

(** ** The header nuttx/lcd/ft80x.h

    The header is not part of the sources at hand: its addresses, command
    codes and display-list macros are taken as parameters. *)

Class ft80x_h := {
  FT80X_RAM_DL : Z;
  FT80X_RAM_DL_SIZE : Z;
  FT80X_ROM_CHIPID : Z;
  FT80X_REG_ID : Z;
  FT80X_REG_HCYCLE : Z;
  FT80X_REG_HOFFSET : Z;
  FT80X_REG_HSIZE : Z;
  FT80X_REG_HSYNC0 : Z;
  FT80X_REG_HSYNC1 : Z;
  FT80X_REG_VCYCLE : Z;
  FT80X_REG_VOFFSET : Z;
  FT80X_REG_VSIZE : Z;
  FT80X_REG_VSYNC0 : Z;
  FT80X_REG_VSYNC1 : Z;
  FT80X_REG_DLSWAP : Z;
  FT80X_REG_SWIZZLE : Z;
  FT80X_REG_CSPREAD : Z;
  FT80X_REG_PCLK_POL : Z;
  FT80X_REG_PCLK : Z;
  FT80X_REG_GPIO_DIR : Z;
  FT80X_REG_GPIO : Z;
  FT80X_REG_TRACKER : Z;
  FT80X_CMD_ACTIVE : Z;
  FT80X_CMD_CLKEXT : Z;
  ID_MASK : Z;
  DLSWAP_FRAME : Z;
  FT80X_CLEAR_COLOR_RGB : Z -> Z -> Z -> Z;
  FT80X_CLEAR : Z -> Z -> Z -> Z;
  FT80X_DISPLAY : Z;
  (* byte offsets of the members of the two ioctl argument structures *)
  offsetof_dlsize : Z;
  offsetof_cmd : Z;
  offsetof_offset : Z;
  offsetof_value : Z
}.

(** ** The driver state structure and the lower-half configuration *)

Record ft80x_config_s := {
  init_frequency : Z;
  op_frequency : Z;
  destroy : bool               (* lower->destroy != NULL *)
}.

Record ft80x_dev_s := {
  spi : Z;                          (* the SPI or I2C driver handle *)
  lower : option ft80x_config_s;    (* None is the NULL pointer *)
  frequency : Z;
  exclsem : option Z;               (* semaphore count; None: no semaphore *)
  crefs : Z;                        (* uint8_t *)
  unlinked : bool
}.

(** What kmm_zalloc returns: a zeroed structure. *)
Definition zeroed : ft80x_dev_s :=
  {| spi := 0; lower := None; frequency := 0; exclsem := None;
     crefs := 0; unlinked := false |}.

Definition with_spi (v : Z) (p : ft80x_dev_s) : ft80x_dev_s :=
  {| spi := v; lower := lower p; frequency := frequency p;
     exclsem := exclsem p; crefs := crefs p; unlinked := unlinked p |}.
Definition with_lower (v : option ft80x_config_s) (p : ft80x_dev_s) :=
  {| spi := spi p; lower := v; frequency := frequency p;
     exclsem := exclsem p; crefs := crefs p; unlinked := unlinked p |}.
Definition with_frequency (v : Z) (p : ft80x_dev_s) : ft80x_dev_s :=
  {| spi := spi p; lower := lower p; frequency := v;
     exclsem := exclsem p; crefs := crefs p; unlinked := unlinked p |}.
Definition with_exclsem (v : option Z) (p : ft80x_dev_s) : ft80x_dev_s :=
  {| spi := spi p; lower := lower p; frequency := frequency p;
     exclsem := v; crefs := crefs p; unlinked := unlinked p |}.
Definition with_crefs (v : Z) (p : ft80x_dev_s) : ft80x_dev_s :=
  {| spi := spi p; lower := lower p; frequency := frequency p;
     exclsem := exclsem p; crefs := v; unlinked := unlinked p |}.
Definition with_unlinked (v : bool) (p : ft80x_dev_s) : ft80x_dev_s :=
  {| spi := spi p; lower := lower p; frequency := frequency p;
     exclsem := exclsem p; crefs := crefs p; unlinked := v |}.

(** ** The log *)

Inductive field := Crefs | Unlinked.

Inductive event :=
  (* the exclusion semaphore priv->exclsem *)
  | SemInit | SemWait | SemPost | SemDestroy
  (* accesses to priv->crefs and priv->unlinked *)
  | Rd (f : field) | Wr (f : field)
  (* heap and name space *)
  | KmmZalloc
  | KmmFree (freed : ft80x_dev_s)     (* the contents when the block is freed *)
  | RegisterDriver (path : string)
  (* lower half *)
  | LowerDestroy
  | Pwrdown (pwrdown : bool)
  | Mdelay (ms : Z)
  (* transport: ft80x_host_command, ft80x_read_*, ft80x_write_* *)
  | HostCommand (cmd : Z)
  | ReadByte (addr : Z)
  | ReadWord (addr : Z)
  | WriteByte (addr data : Z)
  | WriteHword (addr data : Z)
  | WriteWord (addr data : Z)
  | WriteMemory (addr src len : Z).

(** ** The world the driver runs in *)

Record world := {
  priv : ft80x_dev_s;     (* contents of the heap block of the instance *)
  allocated : bool;       (* the block is owned: after kmm_zalloc, before kmm_free *)
  umem : Z -> Z;          (* the caller's memory: the 32-bit word at an address *)
  nodes : list string;    (* registered driver nodes *)
  log : list event
}.

Definition set_priv (p : ft80x_dev_s) (w : world) : world :=
  {| priv := p; allocated := allocated w; umem := umem w;
     nodes := nodes w; log := log w |}.
Definition set_allocated (b : bool) (w : world) : world :=
  {| priv := priv w; allocated := b; umem := umem w;
     nodes := nodes w; log := log w |}.
Definition set_umem (m : Z -> Z) (w : world) : world :=
  {| priv := priv w; allocated := allocated w; umem := m;
     nodes := nodes w; log := log w |}.
Definition set_nodes (n : list string) (w : world) : world :=
  {| priv := priv w; allocated := allocated w; umem := umem w;
     nodes := n; log := log w |}.
Definition set_log (l : list event) (w : world) : world :=
  {| priv := priv w; allocated := allocated w; umem := umem w;
     nodes := nodes w; log := l |}.

(** ** A state monad over the world *)

Definition M (A : Type) : Type := world -> A * world.

Definition ret {A} (a : A) : M A := fun w => (a, w).
Definition bind {A B} (m : M A) (k : A -> M B) : M B :=
  fun w => let (a, w') := m w in k a w'.

Notation "x <- m ;; k" := (bind m (fun x => k))
  (at level 61, m at next level, right associativity).
Notation "m ;; k" := (bind m (fun _ => k))
  (at level 61, right associativity).

Definition emit (e : event) : M unit :=
  fun w => (tt, set_log (log w ++ [e]) w).
Definition get_priv : M ft80x_dev_s := fun w => (priv w, w).
Definition modify_priv (f : ft80x_dev_s -> ft80x_dev_s) : M unit :=
  fun w => (tt, set_priv (f (priv w)) w).
Definition when (b : bool) (m : M unit) : M unit := if b then m else ret tt.

(** Accesses to the lifecycle fields.  A freed block still holds what was
    last stored in it: an access after kmm_free is logged like any other. *)

Definition load_crefs : M Z :=
  emit (Rd Crefs) ;; p <- get_priv ;; ret (crefs p).
Definition store_crefs (v : Z) : M unit :=
  emit (Wr Crefs) ;; modify_priv (with_crefs v).
Definition load_unlinked : M bool :=
  emit (Rd Unlinked) ;; p <- get_priv ;; ret (unlinked p).
Definition store_unlinked (v : bool) : M unit :=
  emit (Wr Unlinked) ;; modify_priv (with_unlinked v).

(** The semaphore.  [nxsem_wait] can fail (it returns a negated errno when
    the wait is interrupted): what it returns is an input of each method. *)

Definition sem_init (n : Z) : M unit :=
  emit SemInit ;; modify_priv (with_exclsem (Some n)).
Definition nxsem_wait (waitret : Z) : M Z :=
  if waitret <? 0 then ret waitret
  else
    emit SemWait ;;
    modify_priv (fun p => with_exclsem (option_map (fun n => n - 1) (exclsem p)) p) ;;
    ret OK.
Definition nxsem_post : M unit :=
  emit SemPost ;;
  modify_priv (fun p => with_exclsem (option_map (fun n => n + 1) (exclsem p)) p).
Definition sem_destroy : M unit :=
  emit SemDestroy ;; modify_priv (with_exclsem None).

(** The heap. *)

Definition kmm_free : M unit :=
  fun w => (tt, set_allocated false (set_log (log w ++ [KmmFree (priv w)]) w)).

(** lcdinfo("crefs: %d\n", priv->crefs) *)
Definition lcdinfo_crefs (cfg : config_t) : M unit :=
  when (CONFIG_DEBUG_LCD_INFO cfg) (_ <- load_crefs ;; ret tt).

(** ** Device Lifecycle Manager *)

Definition ft80x_destroy : M unit :=
  p <- get_priv ;;
  when (match lower p with Some l => destroy l | None => false end)
       (emit LowerDestroy) ;;
  sem_destroy ;;
  kmm_free.

Definition ft80x_open (cfg : config_t) (waitret : Z) : M Z :=
  lcdinfo_crefs cfg ;;
  r <- nxsem_wait waitret ;;
  if r <? 0 then ret r
  else
    c <- load_crefs ;;
    let tmp := uint8 (c + 1) in
    if tmp =? 0 then
      (* More than 255 opens; uint8_t overflows to zero *)
      nxsem_post ;; ret (- EMFILE)
    else
      store_crefs tmp ;;
      nxsem_post ;; ret OK.

Definition ft80x_close (cfg : config_t) (waitret : Z) : M Z :=
  lcdinfo_crefs cfg ;;
  r <- nxsem_wait waitret ;;
  if r <? 0 then ret r
  else
    c <- load_crefs ;;
    if c <=? 1 then
      store_crefs 0 ;;
      u <- load_unlinked ;;
      if u then
        ft80x_destroy ;; ret OK
      else
        nxsem_post ;; ret OK
    else
      c' <- load_crefs ;;
      store_crefs (uint8 (c' - 1)) ;;
      nxsem_post ;; ret OK.

Definition ft80x_unlink : M Z :=
  store_unlinked true ;;
  c <- load_crefs ;;
  when (c =? 0) ft80x_destroy ;;
  ret OK.

(** ft80x_close on a preemptive kernel: the statements of ft80x_close, with
    the call [other] of another task running between the load of
    priv->unlinked and the branch on the value loaded.  A call that waits
    for priv->exclsem cannot run there, since ft80x_close holds it. *)
Definition ft80x_close_preempted (cfg : config_t) (waitret : Z) (other : M Z)
  : M Z :=
  lcdinfo_crefs cfg ;;
  r <- nxsem_wait waitret ;;
  if r <? 0 then ret r
  else
    c <- load_crefs ;;
    if c <=? 1 then
      store_crefs 0 ;;
      u <- load_unlinked ;;
      other ;;
      if u then
        ft80x_destroy ;; ret OK
      else
        nxsem_post ;; ret OK
    else
      c' <- load_crefs ;;
      store_crefs (uint8 (c' - 1)) ;;
      nxsem_post ;; ret OK.

(** ** Transport, command dispatcher, bring-up and registration *)

Inductive ioctl_cmd :=
  | FT80XIOC_PUTDISPLAYLIST
  | FT80XIOC_GETRESULT32
  | FT80XIOC_GETTRACKER
  | IOC_unrecognized (cmd : Z).

Section Driver.

Context {hdr : ft80x_h}.

(** The coprocessor: what a read of an address returns, given all that
    happened before. *)
Variable hw : list event -> Z -> Z.

Variable cfg : config_t.

(** *** The transport (ft80x_spi.c / ft80x_i2c.c), as a recorder *)

Definition ft80x_host_command (cmd : Z) : M unit := emit (HostCommand cmd).
Definition ft80x_read_byte (addr : Z) : M Z :=
  fun w => (uint8 (hw (log w) addr), set_log (log w ++ [ReadByte addr]) w).
Definition ft80x_read_word (addr : Z) : M Z :=
  fun w => (uint32 (hw (log w) addr), set_log (log w ++ [ReadWord addr]) w).
Definition ft80x_write_byte (addr data : Z) : M unit := emit (WriteByte addr data).
Definition ft80x_write_hword (addr data : Z) : M unit := emit (WriteHword addr data).
Definition ft80x_write_word (addr data : Z) : M unit := emit (WriteWord addr data).
Definition ft80x_write_memory (addr src len : Z) : M unit :=
  emit (WriteMemory addr src len).

(** *** Caller memory *)

Definition load32 (addr : Z) : M Z := fun w => (uint32 (umem w addr), w).
Definition store32 (addr v : Z) : M unit :=
  fun w => (tt, set_umem (fun a => if a =? addr then v else umem w a) w).

(** *** ft80x_write *)

Definition ft80x_write (waitret : Z) (buffer len : Z) : M Z :=
  if (buffer =? 0) || negb (Z.land buffer 3 =? 0) ||
     (len =? 0) || negb (Z.land len 3 =? 0) || (FT80X_RAM_DL_SIZE <? len)
  then ret (- EINVAL)
  else
    r <- nxsem_wait waitret ;;
    if r <? 0 then ret r
    else
      ft80x_write_memory FT80X_RAM_DL buffer len ;;
      nxsem_post ;;
      ret len.

(** *** ft80x_ioctl *)

Definition ioctl_putdisplaylist (arg : Z) : M Z :=
  let dl := arg in
  dlsize <- load32 (dl + offsetof_dlsize) ;;
  if (dl =? 0) || negb (Z.land (dl + offsetof_cmd) 3 =? 0) ||
     (dlsize =? 0) || negb (Z.land dlsize 3 =? 0) ||
     (FT80X_RAM_DL_SIZE <? dlsize)
  then ret (- EINVAL)
  else
    ft80x_write_memory FT80X_RAM_DL (dl + offsetof_cmd) dlsize ;;
    ret OK.

Definition ioctl_getresult32 (arg : Z) : M Z :=
  let result := arg in
  offset <- load32 (result + offsetof_offset) ;;
  if (result =? 0) || negb (Z.land (result + offsetof_offset) 3 =? 0) ||
     (FT80X_RAM_DL_SIZE <=? offset)
  then ret (- EINVAL)
  else
    v <- ft80x_read_word (uint32 (FT80X_RAM_DL + offset)) ;;
    store32 (result + offsetof_value) v ;;
    ret OK.

Definition ioctl_gettracker (arg : Z) : M Z :=
  let tracker := arg in
  if tracker =? 0 then ret (- EINVAL)
  else
    v <- ft80x_read_word FT80X_REG_TRACKER ;;
    store32 tracker v ;;
    ret OK.

Definition ft80x_ioctl (waitret : Z) (cmd : ioctl_cmd) (arg : Z) : M Z :=
  r <- nxsem_wait waitret ;;
  if r <? 0 then ret r
  else
    r <- match cmd with
         | FT80XIOC_PUTDISPLAYLIST => ioctl_putdisplaylist arg
         | FT80XIOC_GETRESULT32 => ioctl_getresult32 arg
         | FT80XIOC_GETTRACKER => ioctl_gettracker arg
         | IOC_unrecognized _ => ret (- ENOTTY)
         end ;;
    nxsem_post ;;
    ret r.

(** *** ft80x_initialize *)

(** 4. Configure video timing registers, except FT80X_REG_PCLK (the part
    after FT80X_REG_PCLK has been set to zero). *)
Definition timing_registers (d : display_t) : M unit :=
  match d with
  | CONFIG_LCD_FT80X_WQVGA =>
      ft80x_write_hword FT80X_REG_HCYCLE 548 ;;
      ft80x_write_hword FT80X_REG_HOFFSET 43 ;;
      ft80x_write_hword FT80X_REG_HSYNC0 0 ;;
      ft80x_write_hword FT80X_REG_HSYNC1 41 ;;
      ft80x_write_hword FT80X_REG_VCYCLE 292 ;;
      ft80x_write_hword FT80X_REG_VOFFSET 12 ;;
      ft80x_write_hword FT80X_REG_VSYNC0 0 ;;
      ft80x_write_hword FT80X_REG_VSYNC1 10 ;;
      ft80x_write_byte FT80X_REG_SWIZZLE 0 ;;
      ft80x_write_byte FT80X_REG_PCLK_POL 1 ;;
      ft80x_write_byte FT80X_REG_CSPREAD 1 ;;
      ft80x_write_hword FT80X_REG_HSIZE 480 ;;
      ft80x_write_hword FT80X_REG_VSIZE 272
  | CONFIG_LCD_FT80X_QVGA =>
      ft80x_write_hword FT80X_REG_HCYCLE 408 ;;
      ft80x_write_hword FT80X_REG_HOFFSET 70 ;;
      ft80x_write_hword FT80X_REG_HSYNC0 0 ;;
      ft80x_write_hword FT80X_REG_HSYNC1 10 ;;
      ft80x_write_hword FT80X_REG_VCYCLE 263 ;;
      ft80x_write_hword FT80X_REG_VOFFSET 13 ;;
      ft80x_write_hword FT80X_REG_VSYNC0 0 ;;
      ft80x_write_hword FT80X_REG_VSYNC1 2 ;;
      ft80x_write_byte FT80X_REG_SWIZZLE 0 ;;
      ft80x_write_byte FT80X_REG_PCLK_POL 0 ;;
      ft80x_write_byte FT80X_REG_CSPREAD 1 ;;
      ft80x_write_hword FT80X_REG_HSIZE 320 ;;
      ft80x_write_hword FT80X_REG_VSIZE 240
  end.

(** What follows the two identity checks, up to the final return. *)
Definition program_display : M Z :=
  ft80x_write_byte FT80X_REG_PCLK 0 ;;
  timing_registers (display cfg) ;;
  (* 5. Write first display list *)
  ft80x_write_word (FT80X_RAM_DL + 0) (FT80X_CLEAR_COLOR_RGB 0 0 0) ;;
  ft80x_write_word (FT80X_RAM_DL + 4) (FT80X_CLEAR 1 1 1) ;;
  ft80x_write_word (FT80X_RAM_DL + 8) FT80X_DISPLAY ;;
  (* 6. Write FT80X_REG_DLSWAP *)
  ft80x_write_byte FT80X_REG_DLSWAP DLSWAP_FRAME ;;
  (* GPIO bit 7: display enable *)
  regval8 <- ft80x_read_byte FT80X_REG_GPIO_DIR ;;
  ft80x_write_byte FT80X_REG_GPIO_DIR (Z.lor regval8 (Z.shiftl 1 7)) ;;
  regval8 <- ft80x_read_byte FT80X_REG_GPIO ;;
  ft80x_write_byte FT80X_REG_GPIO (Z.lor regval8 (Z.shiftl 1 7)) ;;
  (* 8. Write FT80X_REG_PCLK *)
  ft80x_write_byte FT80X_REG_PCLK 5 ;;
  (* 9. Use MCU SPI clock not more than 30MHz *)
  modify_priv (fun p =>
    with_frequency (match lower p with Some l => op_frequency l | None => 0 end) p) ;;
  ret OK.

Definition ft80x_initialize : M Z :=
  emit (Pwrdown false) ;;
  emit (Mdelay 20) ;;
  (* 1. Select the initial SPI frequency *)
  modify_priv (fun p =>
    with_frequency (match lower p with Some l => init_frequency l | None => 0 end) p) ;;
  ft80x_host_command FT80X_CMD_CLKEXT ;;
  ft80x_host_command FT80X_CMD_ACTIVE ;;
  (* Verify the chip ID; regval32 is declared uint8_t *)
  v <- ft80x_read_word FT80X_REG_ID ;;
  let regval32 := uint8 v in
  if negb (Z.land regval32 ID_MASK =? 0x7c) then ret (- ENODEV)
  else
    v <- ft80x_read_word FT80X_ROM_CHIPID ;;
    let regval32 := uint8 v in
    if negb (regval32 =? ROMID (chip cfg)) then ret (- ENODEV)
    else program_display.

(** *** ft80x_register *)

Definition kmm_zalloc (succeeds : bool) : M bool :=
  if succeeds then
    fun w => (true, set_allocated true (set_priv zeroed (set_log (log w ++ [KmmZalloc]) w)))
  else ret false.

Definition register_driver (path : string) (regret : Z) : M Z :=
  if regret <? 0 then ret regret
  else
    fun w => (regret, set_nodes (path :: nodes w)
                        (set_log (log w ++ [RegisterDriver path]) w)).

(** [zalloc_ok] and [regret] are what kmm_zalloc and register_driver
    answer. *)
Definition ft80x_register (zalloc_ok : bool) (regret : Z)
    (spi_dev : Z) (lower_cfg : ft80x_config_s) : M Z :=
  ok <- kmm_zalloc zalloc_ok ;;
  if negb ok then ret (- ENOMEM)
  else
    modify_priv (with_lower (Some lower_cfg)) ;;
    modify_priv (with_spi spi_dev) ;;
    sem_init 1 ;;
    r <- ft80x_initialize ;;
    if r <? 0 then
      sem_destroy ;; ret r
    else
      r <- register_driver (DEVNAME (chip cfg)) regret ;;
      if r <? 0 then
        sem_destroy ;; ret r
      else ret OK.

(** *** What ft80x_initialize does before the identity checks *)

Definition wake_log : list event :=
  [Pwrdown false; Mdelay 20;
   HostCommand FT80X_CMD_CLKEXT; HostCommand FT80X_CMD_ACTIVE].

Definition init_frequency_of (p : ft80x_dev_s) : Z :=
  match lower p with Some l => init_frequency l | None => 0 end.

(** The chip identity as ft80x_initialize holds it: the answer of the
    device, first as the uint32_t that ft80x_read_word returns, then in
    the uint8_t variable regval32. *)
Definition chip_id_seen (w : world) : Z :=
  uint8 (uint32 (hw (log w ++ wake_log) FT80X_REG_ID)).

End Driver.

(** ** Sequences of lifecycle calls *)

Inductive call :=
  | Open (waitret : Z)      (* ft80x_open; nxsem_wait answers waitret *)
  | Close (waitret : Z)     (* ft80x_close *)
  | Unlink.                 (* ft80x_unlink *)

Definition do_call (cfg : config_t) (c : call) : M Z :=
  match c with
  | Open r => ft80x_open cfg r
  | Close r => ft80x_close cfg r
  | Unlink => ft80x_unlink
  end.

Fixpoint run_calls (cfg : config_t) (cs : list call) (w : world) : world :=
  match cs with
  | [] => w
  | c :: cs' => run_calls cfg cs' (snd (do_call cfg c w))
  end.

(** What the file system does around the driver (fs/ is not part of the
    sources at hand): it calls a method only while the node is in the name
    space or a file is open on it, which covers the open of a duplicated
    descriptor after the unlink, and it calls close only for a file that a
    successful open returned. *)

Record vfs := {
  linked : bool;      (* the node is still in the name space *)
  handles : Z         (* open files on the node *)
}.

Definition reachable (v : vfs) : bool := linked v || (0 <? handles v).

Definition vfs_step (cfg : config_t) (c : call) (s : vfs * world)
  : option (vfs * world) :=
  let (v, w) := s in
  match c with
  | Open r =>
      if reachable v then
        let (res, w') := ft80x_open cfg r w in
        Some ({| linked := linked v;
                 handles := if res <? 0 then handles v else handles v + 1 |}, w')
      else None
  | Close r =>
      if 0 <? handles v then
        Some ({| linked := linked v; handles := handles v - 1 |},
              snd (ft80x_close cfg r w))
      else None
  | Unlink =>
      if reachable v then
        Some ({| linked := false; handles := handles v |}, snd (ft80x_unlink w))
      else None
  end.

Fixpoint vfs_run (cfg : config_t) (cs : list call) (s : vfs * world)
  : option (vfs * world) :=
  match cs with
  | [] => Some s
  | c :: cs' =>
      match vfs_step cfg c s with
      | Some s' => vfs_run cfg cs' s'
      | None => None
      end
  end.

Definition vfs_start : vfs := {| linked := true; handles := 0 |}.

(** No call of the sequence is made on an instance that ft80x_destroy has
    already given back to the allocator. *)
Fixpoint calls_find_instance (cfg : config_t) (cs : list call) (w : world)
  : bool :=
  match cs with
  | [] => true
  | c :: cs' =>
      allocated w && calls_find_instance cfg cs' (snd (do_call cfg c w))
  end.

(** ** Reading the log *)

Definition is_free (e : event) : bool :=
  match e with KmmFree _ => true | _ => false end.

(** How often ft80x_destroy ran to its end. *)
Definition destroy_count (l : list event) : nat := List.length (filter is_free l).

(** The calls that go through the pointer to the instance: the loads and
    stores of its fields, every call on its semaphore, the hook found
    through priv->lower, the transport functions, which take the SPI
    instance and the frequency from it, and kmm_free of the block itself.
    Only the allocation, register_driver and the delay do not. *)
Definition uses_instance (e : event) : bool :=
  match e with
  | KmmZalloc | RegisterDriver _ | Mdelay _ => false
  | _ => true
  end.

(** The instance is used after a kmm_free of it: a field or the semaphore
    is accessed, or the block is given to kmm_free again. *)
Fixpoint access_after_free (l : list event) : bool :=
  match l with
  | [] => false
  | e :: l' => (is_free e && existsb uses_instance l') || access_after_free l'
  end.

(** Every kmm_free in the log freed an instance with no reference left
    that was unlinked. *)
Definition freed_when_due (l : list event) : Prop :=
  forall p, In (KmmFree p) l -> crefs p = 0 /\ unlinked p = true.

(** Every access to a lifecycle field happens between a successful
    nxsem_wait and the nxsem_post (or sem_destroy) that follows it. *)
Fixpoint locked_accesses (held : bool) (l : list event) : bool :=
  match l with
  | [] => true
  | SemWait :: l' => locked_accesses true l'
  | SemPost :: l' => locked_accesses false l'
  | SemDestroy :: l' => locked_accesses false l'
  | Rd _ :: l' => held && locked_accesses held l'
  | Wr _ :: l' => held && locked_accesses held l'
  | _ :: l' => locked_accesses held l'
  end.

(** What a method appended to the log. *)
Definition appended (w w' : world) (d : list event) : Prop :=
  log w' = log w ++ d.

(** ** Reading the transport calls and the lock in the log *)

(** What a method appends to the log when it runs in world [w]. *)
Definition appended_by {A} (m : M A) (w : world) : list event :=
  skipn (List.length (log w)) (log (snd (m w))).

(** The log of a method ends with the lock given back: posted, or destroyed
    together with the instance. *)
Definition ends_released (d : list event) : bool :=
  match rev d with
  | SemPost :: _ => true
  | KmmFree _ :: SemDestroy :: _ => true
  | _ => false
  end.

Definition is_bus (e : event) : bool :=
  match e with
  | HostCommand _ | ReadByte _ | ReadWord _
  | WriteByte _ _ | WriteHword _ _ | WriteWord _ _ | WriteMemory _ _ _ => true
  | _ => false
  end.

Definition is_bus_write (e : event) : bool :=
  match e with
  | WriteByte _ _ | WriteHword _ _ | WriteWord _ _ | WriteMemory _ _ _ => true
  | _ => false
  end.

(** The address a transport call writes to, if it is a write. *)
Definition written_register (e : event) : option Z :=
  match e with
  | WriteByte a _ | WriteHword a _ | WriteWord a _ | WriteMemory a _ _ => Some a
  | _ => None
  end.

(** The transport calls in a log, in order. *)
Definition bus_ops (l : list event) : list event := filter is_bus l.

(** The validation of a Display-List Write Request in the words of the
    specification: the request is refused when the pointer is null or not
    word-aligned, or the length is zero, not a multiple of 4, or larger
    than the display-list capacity. *)
Definition request_refused {hdr : ft80x_h} (pointer length : Z) : bool :=
  (pointer =? 0) || negb (pointer mod 4 =? 0) ||
  (length =? 0) || negb (length mod 4 =? 0) || (FT80X_RAM_DL_SIZE <? length).

(** ** The outcome of a method, for stating what it does *)

(** The world after a method: new instance contents, new ownership of the
    block, and what was appended to the log. *)
Definition after (w : world) (p : ft80x_dev_s) (a : bool) (d : list event)
  : world :=
  {| priv := p; allocated := a; umem := umem w; nodes := nodes w;
     log := log w ++ d |}.

(** The semaphore count after a wait and the post that pairs with it. *)
Definition relock (s : option Z) : option Z :=
  option_map (fun n => n + 1) (option_map (fun n => n - 1) s).

Definition lcdinfo_log (cfg : config_t) : list event :=
  if CONFIG_DEBUG_LCD_INFO cfg then [Rd Crefs] else [].

Definition destroy_log (p : ft80x_dev_s) : list event :=
  (if match lower p with Some l => destroy l | None => false end
   then [LowerDestroy] else [])
  ++ [SemDestroy; KmmFree (with_exclsem None p)].

(** ** The invariant of the lifecycle *)

(** An instance that has just been registered: owned, without references,
    not unlinked, never freed. *)
Definition fresh (w : world) : Prop :=
  allocated w = true /\ crefs (priv w) = 0 /\ unlinked (priv w) = false /\
  destroy_count (log w) = 0%nat.

Definition waits_succeed (cs : list call) : bool :=
  forallb (fun c => match c with
                    | Open r | Close r => 0 <=? r
                    | Unlink => true
                    end) cs.

Record lifecycle_inv (s : vfs * world) : Prop := {
  inv_handles : 0 <= handles (fst s) <= crefs (priv (snd s));
  inv_uint8 : crefs (priv (snd s)) <= 255;
  inv_unlinked : unlinked (priv (snd s)) = negb (linked (fst s));
  inv_due : freed_when_due (log (snd s));
  inv_live : allocated (snd s) = true ->
             destroy_count (log (snd s)) = 0%nat /\
             ~ (crefs (priv (snd s)) = 0 /\ unlinked (priv (snd s)) = true);
  inv_gone : allocated (snd s) = false ->
             destroy_count (log (snd s)) = 1%nat /\
             access_after_free (log (snd s)) = false /\
             crefs (priv (snd s)) = 0 /\ unlinked (priv (snd s)) = true
}.

(** The file system's view that the invariant is checked against when only
    the instance is known: linked as the flag says, no file counted. *)
Definition unheld (w : world) : vfs :=
  {| linked := negb (unlinked (priv w)); handles := 0 |}.

(** ** Concrete values *)

(** The FT800 memory map and command encodings of the data sheet, with the
    members of the ioctl structures laid out as two consecutive words. *)
Definition ft800_h : ft80x_h := {|
  FT80X_RAM_DL := 0x100000;
  FT80X_RAM_DL_SIZE := 8192;
  FT80X_ROM_CHIPID := 0x0c0000;
  FT80X_REG_ID := 0x102400;
  FT80X_REG_HCYCLE := 0x102428;
  FT80X_REG_HOFFSET := 0x10242c;
  FT80X_REG_HSIZE := 0x102430;
  FT80X_REG_HSYNC0 := 0x102434;
  FT80X_REG_HSYNC1 := 0x102438;
  FT80X_REG_VCYCLE := 0x10243c;
  FT80X_REG_VOFFSET := 0x102440;
  FT80X_REG_VSIZE := 0x102444;
  FT80X_REG_VSYNC0 := 0x102448;
  FT80X_REG_VSYNC1 := 0x10244c;
  FT80X_REG_DLSWAP := 0x102450;
  FT80X_REG_SWIZZLE := 0x102460;
  FT80X_REG_CSPREAD := 0x102464;
  FT80X_REG_PCLK_POL := 0x102468;
  FT80X_REG_PCLK := 0x10246c;
  FT80X_REG_GPIO_DIR := 0x10248c;
  FT80X_REG_GPIO := 0x102490;
  FT80X_REG_TRACKER := 0x109000;
  FT80X_CMD_ACTIVE := 0x00;
  FT80X_CMD_CLKEXT := 0x44;
  ID_MASK := 0xff;
  DLSWAP_FRAME := 2;
  FT80X_CLEAR_COLOR_RGB := fun r g b =>
    Z.lor (Z.shiftl 0x02 24) (Z.lor (Z.shiftl r 16) (Z.lor (Z.shiftl g 8) b));
  FT80X_CLEAR := fun c s t =>
    Z.lor (Z.shiftl 0x26 24) (Z.lor (Z.shiftl c 2) (Z.lor (Z.shiftl s 1) t));
  FT80X_DISPLAY := 0;
  offsetof_dlsize := 0;
  offsetof_cmd := 4;
  offsetof_offset := 0;
  offsetof_value := 4
|}.

(** A genuine FT800: it answers 0x7c for the chip identity and 0x01000800
    for the ROM identity word. *)
Definition genuine_ft800 : list event -> Z -> Z :=
  fun _ addr =>
    if addr =? 0x102400 then 0x7c
    else if addr =? 0x0c0000 then 0x01000800
    else 0x55aa55aa.

Definition demo_cfg : config_t :=
  {| chip := CONFIG_LCD_FT800; display := CONFIG_LCD_FT80X_WQVGA;
     CONFIG_DEBUG_LCD_INFO := true |}.

Definition demo_lower : ft80x_config_s :=
  {| init_frequency := 10000000; op_frequency := 20000000; destroy := true |}.

(** A registered instance with [c] references; [words] is caller memory. *)
Definition demo_instance (c : Z) (u : bool) (words : Z -> Z) : world :=
  {| priv := {| spi := 1; lower := Some demo_lower; frequency := 20000000;
                exclsem := Some 1; crefs := c; unlinked := u |};
     allocated := true;
     umem := words;
     nodes := ["/dev/ft800"%string];
     log := [] |}.

Definition no_words : Z -> Z := fun _ => 0.

(** Caller memory with one word [v] at address [a]. *)
Definition word_at (a v : Z) : Z -> Z := fun x => if x =? a then v else 0.

(** A world before registration: nothing allocated. *)
Definition boot_world : world :=
  {| priv := zeroed; allocated := false; umem := no_words; nodes := [];
     log := [] |}.

(** ** Pipe numbers and pipe devices (drivers/pipes/pipe.c) *)

Definition ENFILE : Z := 23.
Definition MAX_PIPES : Z := 32.

(** The file-scope variables of pipe.c, and what pipe_register reaches
    outside of them: the device structures that pipecommon_allocdev handed
    out and pipecommon_freedev has not taken back (by their d_pipeno), and
    the nodes that register_driver accepted. *)
Record pipe_state := {
  g_pipesem : Z;            (* the count of the semaphore *)
  g_pipeset : Z;            (* uint32_t *)
  g_pipecreated : Z;        (* uint32_t *)
  pipe_devs : list Z;
  pipe_nodes : list string
}.

Definition set_pipesem (v : Z) (st : pipe_state) : pipe_state :=
  {| g_pipesem := v; g_pipeset := g_pipeset st;
     g_pipecreated := g_pipecreated st; pipe_devs := pipe_devs st;
     pipe_nodes := pipe_nodes st |}.
Definition set_pipeset (v : Z) (st : pipe_state) : pipe_state :=
  {| g_pipesem := g_pipesem st; g_pipeset := v;
     g_pipecreated := g_pipecreated st; pipe_devs := pipe_devs st;
     pipe_nodes := pipe_nodes st |}.
Definition set_pipecreated (v : Z) (st : pipe_state) : pipe_state :=
  {| g_pipesem := g_pipesem st; g_pipeset := g_pipeset st;
     g_pipecreated := v; pipe_devs := pipe_devs st;
     pipe_nodes := pipe_nodes st |}.
Definition set_pipe_devs (v : list Z) (st : pipe_state) : pipe_state :=
  {| g_pipesem := g_pipesem st; g_pipeset := g_pipeset st;
     g_pipecreated := g_pipecreated st; pipe_devs := v;
     pipe_nodes := pipe_nodes st |}.
Definition set_pipe_nodes (v : list string) (st : pipe_state) : pipe_state :=
  {| g_pipesem := g_pipesem st; g_pipeset := g_pipeset st;
     g_pipecreated := g_pipecreated st; pipe_devs := pipe_devs st;
     pipe_nodes := v |}.

(** (1 << pipeno), an int, as it enters an operation with a uint32_t. *)
Definition pipe_mask (pipeno : Z) : Z := uint32 (Z.shiftl 1 pipeno).

(** ~(1 << pipeno), likewise. *)
Definition pipe_unmask (pipeno : Z) : Z := uint32 (Z.lnot (Z.shiftl 1 pipeno)).

(** The loop of pipe_allocate, with [n] iterations left:
    for (pipeno = 0; pipeno < MAX_PIPES; pipeno++). *)
Fixpoint pipe_allocate_loop (n : nat) (pipeno : Z) (st : pipe_state)
  : Z * pipe_state :=
  match n with
  | O => (- ENFILE, st)
  | S n' =>
      if Z.land (g_pipeset st) (pipe_mask pipeno) =? 0 then
        (pipeno, set_pipeset (Z.lor (g_pipeset st) (pipe_mask pipeno)) st)
      else pipe_allocate_loop n' (pipeno + 1) st
  end.

Definition pipe_allocate (st : pipe_state) : Z * pipe_state :=
  pipe_allocate_loop (Z.to_nat MAX_PIPES) 0 st.

(** The count of g_pipesem after an nxsem_wait that returned OK and after
    an nxsem_post.  Whether and with what a wait returns is an answer of
    the scheduler, which the functions below take as an argument. *)
Definition pipesem_take (st : pipe_state) : pipe_state :=
  set_pipesem (g_pipesem st - 1) st.
Definition pipesem_post (st : pipe_state) : pipe_state :=
  set_pipesem (g_pipesem st + 1) st.

(** [waitret] is what nxsem_wait(&g_pipesem) answers. *)
Definition pipe_free (waitret : Z) (pipeno : Z) (st : pipe_state) : pipe_state :=
  if waitret =? OK then
    let st := pipesem_take st in
    let st := set_pipeset (Z.land (g_pipeset st) (pipe_unmask pipeno)) st in
    pipesem_post st
  else st.

(** [closeret] is what pipecommon_close answers, [i_crefs] the reference
    count of the inode, [d_pipeno] the number kept in the device. *)
Definition pipe_close (closeret i_crefs waitret d_pipeno : Z) (st : pipe_state)
  : Z * pipe_state :=
  if (closeret =? 0) && (i_crefs =? 1)
  then (closeret, pipe_free waitret d_pipeno st)
  else (closeret, st).

(** snprintf(devname, namesize, "/dev/pipe%d", pipeno) for a buffer of at
    least one byte (both callers pass 16): at most namesize - 1 characters
    are stored. *)
Definition snprintf_devname (namesize : nat) (pipeno : Z) : string :=
  substring 0 (namesize - 1)
    ("/dev/pipe" ++ NilZero.string_of_int (Z.to_int pipeno)).

(** The name of a pipe in full. *)
Definition pipe_name (pipeno : Z) : string :=
  "/dev/pipe" ++ NilZero.string_of_int (Z.to_int pipeno).

(** [waitret] and [freewait] are what the nxsem_wait of pipe_register and
    the one inside pipe_free answer, [allocdev_ok] whether
    pipecommon_allocdev returns a device, [regret] what register_driver
    returns.  The second component is the name left in devname, if any.
    At errout_with_pipe, reached from the failed pipecommon_allocdev,
    g_pipesem is still held by pipe_register itself: the wait inside
    pipe_free cannot succeed there, and comes back, if at all, with an
    error ([freewait] < 0). *)
Definition pipe_register (waitret : Z) (allocdev_ok : bool) (regret : Z)
    (freewait : Z) (namesize : nat) (st : pipe_state)
  : Z * option string * pipe_state :=
  if waitret <? 0 then (waitret, None, st)
  else
    let st := pipesem_take st in
    let (pipeno, st) := pipe_allocate st in
    if pipeno <? 0 then
      (pipeno, None, pipesem_post st)
    else
      let devname := snprintf_devname namesize pipeno in
      if Z.land (g_pipecreated st) (pipe_mask pipeno) =? 0 then
        if negb allocdev_ok then
          (* errout_with_pipe, errout_with_sem *)
          (- ENOMEM, Some devname, pipesem_post (pipe_free freewait pipeno st))
        else
          let st := set_pipe_devs (pipeno :: pipe_devs st) st in
          if negb (regret =? 0) then
            (* nxsem_post, then errout_with_dev and what follows it *)
            let st := pipesem_post st in
            let st := set_pipe_devs (tl (pipe_devs st)) st in
            let st := pipe_free freewait pipeno st in
            (regret, Some devname, pipesem_post st)
          else
            let st := set_pipe_nodes (devname :: pipe_nodes st) st in
            let st := set_pipecreated
                        (Z.lor (g_pipecreated st) (pipe_mask pipeno)) st in
            (OK, Some devname, pipesem_post st)
      else
        (OK, Some devname, pipesem_post st).

(** ** The methods without effect: ft80x_read and ft80x_poll *)

Definition ENOSYS : Z := 38.

(** Reading from the FT80X is not supported: end of file. *)
Definition ft80x_read (buffer len : Z) : M Z := ret 0.

(** Compiled unless CONFIG_DISABLE_POLL is defined. *)
Definition ft80x_poll (setup : bool) : M Z := ret (- ENOSYS).

(** Pipes 0, 1 and 2 taken and created. *)
Definition demo_pipes : pipe_state :=
  {| g_pipesem := 1; g_pipeset := 7; g_pipecreated := 7;
     pipe_devs := [2; 1; 0];
     pipe_nodes := ["/dev/pipe2"; "/dev/pipe1"; "/dev/pipe0"]%string |}.

(** Pipes 0 and 2 taken; pipe 1 was created and has been given back. *)
Definition demo_pipes_reuse : pipe_state :=
  {| g_pipesem := 1; g_pipeset := 5; g_pipecreated := 7;
     pipe_devs := [2; 1; 0];
     pipe_nodes := ["/dev/pipe2"; "/dev/pipe1"; "/dev/pipe0"]%string |}.

(** Every pipe number taken. *)
Definition demo_pipes_full : pipe_state :=
  {| g_pipesem := 1; g_pipeset := 0xffffffff; g_pipecreated := 0xffffffff;
     pipe_devs := []; pipe_nodes := [] |}.

(** ** Tactics *)

Ltac run_monad :=
  unfold ft80x_open, ft80x_close, ft80x_unlink, ft80x_destroy, lcdinfo_crefs,
    lcdinfo_log, destroy_log, when, load_crefs, store_crefs, load_unlinked,
    store_unlinked, nxsem_wait, nxsem_post, sem_destroy, sem_init, kmm_free,
    emit, get_priv, modify_priv, bind, ret, after, relock.

Ltac tidy_log := cbn; repeat rewrite <- app_assoc; cbn.

Ltac run_driver :=
  unfold ft80x_write, ft80x_ioctl, ioctl_putdisplaylist, ioctl_getresult32,
    ioctl_gettracker, ft80x_write_memory, ft80x_read_word, load32, store32,
    nxsem_wait, nxsem_post, emit, get_priv, modify_priv, bind, ret, after,
    relock.

Ltac proj_simpl :=
  cbn [fst snd log priv allocated after umem nodes handles linked].
Ltac proj_simpl_in :=
  cbn [fst snd log priv allocated after umem nodes handles linked] in *.

(** * Proofs *)

(** ** What each lifecycle method does, as one equation per method *)

Lemma relock_id (s : option Z) : relock s = s.
Proof. destruct s as [n|]; cbn; [f_equal; lia | reflexivity]. Qed.

Lemma wait_refused cfg r w :
  r < 0 ->
  ft80x_open cfg r w = (r, after w (priv w) (allocated w) (lcdinfo_log cfg)) /\
  ft80x_close cfg r w = (r, after w (priv w) (allocated w) (lcdinfo_log cfg)).
Proof.
  intros Hr. destruct w as [p a m n l]. run_monad.
  destruct (CONFIG_DEBUG_LCD_INFO cfg); cbn;
    destruct (Z.ltb_spec r 0); try lia; cbn;
    destruct (Z.ltb_spec r 0); try lia; cbn;
    rewrite ?app_nil_r; split; destruct p; reflexivity.
Qed.

Lemma open_eq cfg r w :
  0 <= r ->
  ft80x_open cfg r w =
  let p := priv w in
  let tmp := uint8 (crefs p + 1) in
  if tmp =? 0 then
    (- EMFILE, after w (with_exclsem (relock (exclsem p)) p) (allocated w)
                 (lcdinfo_log cfg ++ [SemWait; Rd Crefs; SemPost]))
  else
    (OK, after w (with_exclsem (relock (exclsem p)) (with_crefs tmp p))
           (allocated w)
           (lcdinfo_log cfg ++ [SemWait; Rd Crefs; Wr Crefs; SemPost])).
Proof.
  intros Hr. destruct w as [p a m n l]. destruct p as [s lo f e c u].
  run_monad.
  destruct (CONFIG_DEBUG_LCD_INFO cfg); cbn;
    destruct (Z.ltb_spec r 0); try lia; cbn;
    destruct (uint8 (c + 1) =? 0); tidy_log; reflexivity.
Qed.

Lemma close_eq cfg r w :
  0 <= r ->
  ft80x_close cfg r w =
  let p := priv w in
  if crefs p <=? 1 then
    if unlinked p then
      (OK, after w (with_exclsem None (with_crefs 0 p)) false
             (lcdinfo_log cfg ++
              [SemWait; Rd Crefs; Wr Crefs; Rd Unlinked] ++
              destroy_log
                (with_exclsem (option_map (fun n => n - 1) (exclsem p))
                   (with_crefs 0 p))))
    else
      (OK, after w (with_exclsem (relock (exclsem p)) (with_crefs 0 p))
             (allocated w)
             (lcdinfo_log cfg ++
              [SemWait; Rd Crefs; Wr Crefs; Rd Unlinked; SemPost]))
  else
    (OK, after w (with_exclsem (relock (exclsem p))
                    (with_crefs (uint8 (crefs p - 1)) p))
           (allocated w)
           (lcdinfo_log cfg ++
            [SemWait; Rd Crefs; Rd Crefs; Wr Crefs; SemPost])).
Proof.
  intros Hr. destruct w as [p a m n l]. destruct p as [s lo f e c u].
  run_monad.
  destruct (CONFIG_DEBUG_LCD_INFO cfg); cbn;
    destruct (Z.ltb_spec r 0); try lia; cbn;
    destruct (c <=? 1); cbn; try (tidy_log; reflexivity);
    destruct u; cbn; try (tidy_log; reflexivity);
    destruct lo as [[i o [|]]|]; tidy_log; reflexivity.
Qed.

Lemma unlink_eq w :
  ft80x_unlink w =
  let p := with_unlinked true (priv w) in
  if crefs p =? 0 then
    (OK, after w (with_exclsem None p) false
           ([Wr Unlinked; Rd Crefs] ++ destroy_log p))
  else
    (OK, after w p (allocated w) [Wr Unlinked; Rd Crefs]).
Proof.
  destruct w as [p a m n l]. destruct p as [s lo f e c u].
  run_monad. cbn.
  destruct (c =? 0); cbn; try (tidy_log; reflexivity).
  destruct lo as [[i o [|]]|]; tidy_log; reflexivity.
Qed.

Lemma with_exclsem_same p : with_exclsem (exclsem p) p = p.
Proof. destruct p; reflexivity. Qed.

Lemma uint8_small x : 0 <= x <= 255 -> uint8 x = x.
Proof. intros Hx. unfold uint8. apply Z.mod_small. lia. Qed.

(** ** open *)

(** C5: with the lock acquired, open() at referenceCount 255 (the largest
    uint8_t) fails with -EMFILE and leaves the instance as it was; at any
    smaller count it returns OK and the instance differs from the one
    before in crefs alone, which is one larger.  In both cases the block
    stays owned, caller memory and the name space are untouched, and the
    log gains semaphore calls and crefs accesses only. *)
Theorem open_increments_or_saturates cfg waitret w :
  0 <= waitret ->
  0 <= crefs (priv w) <= 255 ->
  let r := fst (ft80x_open cfg waitret w) in
  let w' := snd (ft80x_open cfg waitret w) in
  (crefs (priv w) = 255 ->
     r = - EMFILE /\ priv w' = priv w /\
     appended w w' (lcdinfo_log cfg ++ [SemWait; Rd Crefs; SemPost])) /\
  (crefs (priv w) < 255 ->
     r = OK /\ priv w' = with_crefs (crefs (priv w) + 1) (priv w) /\
     appended w w' (lcdinfo_log cfg ++ [SemWait; Rd Crefs; Wr Crefs; SemPost])) /\
  allocated w' = allocated w /\ umem w' = umem w /\ nodes w' = nodes w.
Proof.
  intros Hr Hc r w'. subst r w'. rewrite (open_eq cfg waitret w Hr). cbn zeta.
  destruct (Z.eqb_spec (uint8 (crefs (priv w) + 1)) 0) as [E|E]; cbn.
  - assert (crefs (priv w) = 255) as C.
    { destruct (Z.eq_dec (crefs (priv w)) 255) as [|N]; [assumption|].
      rewrite uint8_small in E by lia. lia. }
    repeat split; try reflexivity; try lia.
    now rewrite relock_id, with_exclsem_same.
  - assert (crefs (priv w) < 255) as C.
    { destruct (Z.eq_dec (crefs (priv w)) 255) as [Y|N]; [|lia].
      rewrite Y in E. now contradiction E. }
    repeat split; try reflexivity; try lia.
    rewrite relock_id, uint8_small by lia.
    destruct (priv w); reflexivity.
Qed.

(** ** close *)

(** C6: with the lock acquired, close() at referenceCount > 1 decrements
    the count and changes nothing else; at referenceCount <= 1 it sets the
    count to 0, and then, if unlinked is set, the instance is destroyed in
    this very call (one kmm_free, of an instance with count 0 and unlinked
    set, the block no longer owned); otherwise the instance survives with
    count 0 and a following open() succeeds and brings the count to 1. *)
Theorem close_decrements_or_destroys cfg waitret w :
  0 <= waitret ->
  0 <= crefs (priv w) <= 255 ->
  let r := fst (ft80x_close cfg waitret w) in
  let w' := snd (ft80x_close cfg waitret w) in
  r = OK /\ umem w' = umem w /\ nodes w' = nodes w /\
  (1 < crefs (priv w) ->
     priv w' = with_crefs (crefs (priv w) - 1) (priv w) /\
     allocated w' = allocated w /\
     destroy_count (log w') = destroy_count (log w)) /\
  (crefs (priv w) <= 1 -> unlinked (priv w) = true ->
     crefs (priv w') = 0 /\
     allocated w' = false /\
     destroy_count (log w') = S (destroy_count (log w)) /\
     In (KmmFree (with_exclsem None (with_crefs 0 (priv w)))) (log w')) /\
  (crefs (priv w) <= 1 -> unlinked (priv w) = false ->
     priv w' = with_crefs 0 (priv w) /\
     allocated w' = allocated w /\
     destroy_count (log w') = destroy_count (log w) /\
     fst (ft80x_open cfg 0 w') = OK /\
     crefs (priv (snd (ft80x_open cfg 0 w'))) = 1).
Proof.
  intros Hr Hc r w'. subst r w'. rewrite (close_eq cfg waitret w Hr). cbn zeta.
  assert (forall l d, forallb (fun e => negb (is_free e)) d = true ->
            destroy_count (l ++ d) = destroy_count l) as Hquiet.
  { intros l d Hd. unfold destroy_count. rewrite filter_app, length_app.
    replace (filter is_free d) with (@nil event); [cbn; lia|].
    induction d as [|e d IH]; [reflexivity|]. cbn in *.
    apply andb_prop in Hd as [He Hd]. destruct (is_free e); [discriminate|].
    now apply IH. }
  destruct (Z.leb_spec (crefs (priv w)) 1) as [L|L].
  - destruct (unlinked (priv w)) eqn:U; cbn.
    + repeat split; try reflexivity; try lia; try discriminate.
      * unfold destroy_count, lcdinfo_log, destroy_log.
        rewrite !filter_app, !length_app.
        destruct (CONFIG_DEBUG_LCD_INFO cfg);
          destruct (lower (priv w)) as [[i o [|]]|]; cbn; lia.
      * apply in_or_app. right. apply in_or_app. right. do 4 right.
        apply in_or_app. right. right. left.
        destruct (priv w); reflexivity.
    + repeat split; try reflexivity; try lia; try discriminate.
      * rewrite relock_id. destruct (priv w); reflexivity.
      * apply Hquiet. unfold lcdinfo_log.
        destruct (CONFIG_DEBUG_LCD_INFO cfg); reflexivity.
      * rewrite open_eq by lia. reflexivity.
      * rewrite open_eq by lia. reflexivity.
  - cbn. repeat split; try reflexivity; try lia.
    + rewrite relock_id, uint8_small by lia. destruct (priv w); reflexivity.
    + apply Hquiet. unfold lcdinfo_log.
      destruct (CONFIG_DEBUG_LCD_INFO cfg); reflexivity.
Qed.

(** ** unlink *)

(** C10: with referenceCount > 0, unlink() returns OK, leaves unlinked set
    to true and every other field (the SPI instance, the lower half, the
    frequency, the semaphore, referenceCount), the ownership of the block,
    caller memory and the name space as they were: nothing is destroyed.
    A second unlink() in that state returns OK again, leaves unlinked true
    and changes nothing in the instance. *)
Theorem unlink_with_references_defers w :
  0 < crefs (priv w) ->
  let r := fst (ft80x_unlink w) in
  let w' := snd (ft80x_unlink w) in
  r = OK /\
  unlinked (priv w') = true /\
  spi (priv w') = spi (priv w) /\ lower (priv w') = lower (priv w) /\
  frequency (priv w') = frequency (priv w) /\
  exclsem (priv w') = exclsem (priv w) /\
  priv w' = with_unlinked true (priv w) /\
  crefs (priv w') = crefs (priv w) /\
  allocated w' = allocated w /\ umem w' = umem w /\ nodes w' = nodes w /\
  appended w w' [Wr Unlinked; Rd Crefs] /\
  destroy_count (log w') = destroy_count (log w) /\
  fst (ft80x_unlink w') = OK /\
  unlinked (priv (snd (ft80x_unlink w'))) = true /\
  priv (snd (ft80x_unlink w')) = priv w' /\
  allocated (snd (ft80x_unlink w')) = allocated w' /\
  destroy_count (log (snd (ft80x_unlink w'))) = destroy_count (log w).
Proof.
  intros Hc r w'. subst r w'. rewrite !unlink_eq. cbn zeta.
  assert ((crefs (priv w) =? 0) = false) as E by (apply Z.eqb_neq; lia).
  cbn. rewrite E. cbn. rewrite E. cbn.
  unfold appended, destroy_count. cbn.
  rewrite <- !app_assoc, !filter_app. cbn. rewrite !app_nil_r.
  repeat split; reflexivity.
Qed.

(** ** Facts about logs *)

Lemma destroy_count_app l d :
  destroy_count (l ++ d) = (destroy_count l + destroy_count d)%nat.
Proof. unfold destroy_count. now rewrite filter_app, length_app. Qed.

Lemma no_free_count l : destroy_count l = 0%nat -> existsb is_free l = false.
Proof.
  unfold destroy_count. induction l as [|e l IH]; cbn; [reflexivity|].
  destruct (is_free e); cbn; [discriminate | exact IH].
Qed.

Lemma access_after_free_app l d :
  access_after_free (l ++ d) =
  access_after_free l || (existsb is_free l && existsb uses_instance d)
  || access_after_free d.
Proof.
  induction l as [|e l IH]; cbn [app access_after_free existsb]; [reflexivity|].
  rewrite IH, existsb_app.
  destruct (is_free e), (existsb uses_instance l), (existsb uses_instance d),
    (access_after_free l), (existsb is_free l), (access_after_free d);
    reflexivity.
Qed.

Lemma no_free_no_access_after l :
  existsb is_free l = false -> access_after_free l = false.
Proof.
  induction l as [|e l IH]; cbn [access_after_free existsb]; [reflexivity|].
  intros Hf. apply orb_false_elim in Hf as [He Hl].
  rewrite He, (IH Hl). reflexivity.
Qed.

Lemma freed_when_due_app l d :
  freed_when_due l -> freed_when_due d -> freed_when_due (l ++ d).
Proof.
  intros Hl Hd p Hp. apply in_app_or in Hp as [Hp|Hp]; [now apply Hl | now apply Hd].
Qed.

Lemma freed_when_due_quiet d : existsb is_free d = false -> freed_when_due d.
Proof.
  intros Hd p Hp. exfalso.
  assert (existsb is_free d = true) as E
    by (apply existsb_exists; exists (KmmFree p); split; [assumption | reflexivity]).
  congruence.
Qed.

Lemma lcdinfo_log_quiet cfg : existsb is_free (lcdinfo_log cfg) = false.
Proof. unfold lcdinfo_log. now destruct (CONFIG_DEBUG_LCD_INFO cfg). Qed.

Lemma destroy_log_count p : destroy_count (destroy_log p) = 1%nat.
Proof. unfold destroy_log. now destruct (lower p) as [[i o [|]]|]. Qed.

(** In ft80x_destroy the kmm_free is the last thing done. *)
Lemma destroy_log_frees_last p : access_after_free (destroy_log p) = false.
Proof. unfold destroy_log. now destruct (lower p) as [[i o [|]]|]. Qed.

Lemma destroy_log_due p :
  crefs p = 0 -> unlinked p = true -> freed_when_due (destroy_log p).
Proof.
  intros Hc Hu q Hq. unfold destroy_log in Hq.
  apply in_app_or in Hq as [Hq|Hq].
  - destruct (match lower p with Some l => destroy l | None => false end);
      cbn in Hq; intuition discriminate.
  - cbn in Hq. destruct Hq as [Hq|[Hq|[]]]; [discriminate|].
    injection Hq as <-. now destruct p.
Qed.

(** ** The lifecycle invariant along a sequence of calls *)

Lemma fresh_inv w : fresh w -> lifecycle_inv (vfs_start, w).
Proof.
  intros (Ha & Hc & Hu & Hd). split; cbn.
  - lia.
  - lia.
  - assumption.
  - apply freed_when_due_quiet. now apply no_free_count.
  - intros _. split; [assumption|]. intros [_ E]. congruence.
  - congruence.
Qed.

(** A call that frees nothing keeps the invariant, once the new count and
    flag are known to agree with the file system's view. *)
Lemma quiet_step v w v' p' d :
  lifecycle_inv (v, w) -> allocated w = true ->
  existsb is_free d = false ->
  0 <= handles v' <= crefs p' -> crefs p' <= 255 ->
  unlinked p' = negb (linked v') ->
  ~ (crefs p' = 0 /\ unlinked p' = true) ->
  lifecycle_inv (v', after w p' (allocated w) d).
Proof.
  intros I Ha Hd Hh H8 Hu Hn. destruct I as [_ _ _ Idue Ilive _]. proj_simpl_in.
  destruct (Ilive Ha) as [I0 _].
  split; proj_simpl; try assumption.
  - apply freed_when_due_app; [assumption | now apply freed_when_due_quiet].
  - intros _. split; [|assumption].
    rewrite destroy_count_app, I0. unfold destroy_count. clear - Hd.
    induction d as [|e d IH]; [reflexivity|]. cbn in *.
    apply orb_false_elim in Hd as [He Hd]. rewrite He. now apply IH.
  - congruence.
Qed.

(** A call that ends in ft80x_destroy keeps the invariant when the count
    was zero and the flag set at that point. *)
Lemma destroy_step v w v' p' q d :
  lifecycle_inv (v, w) -> allocated w = true ->
  existsb is_free d = false ->
  crefs q = 0 -> unlinked q = true ->
  crefs p' = 0 -> unlinked p' = true ->
  handles v' = 0 -> linked v' = false ->
  lifecycle_inv (v', after w p' false (d ++ destroy_log q)).
Proof.
  intros I Ha Hd Hq0 Hqu Hp0 Hpu Hh Hl. destruct I as [_ _ _ Idue Ilive _].
  proj_simpl_in. destruct (Ilive Ha) as [I0 _].
  assert (destroy_count d = 0%nat) as D0.
  { unfold destroy_count. clear - Hd.
    induction d as [|e d IH]; [reflexivity|]. cbn in *.
    apply orb_false_elim in Hd as [He Hd]. rewrite He. now apply IH. }
  split; proj_simpl.
  - lia.
  - lia.
  - now rewrite Hpu, Hl.
  - apply freed_when_due_app; [assumption|].
    apply freed_when_due_app; [now apply freed_when_due_quiet|].
    now apply destroy_log_due.
  - discriminate.
  - intros _. repeat split; try assumption.
    + now rewrite !destroy_count_app, I0, D0, destroy_log_count.
    + rewrite !access_after_free_app.
      rewrite (no_free_no_access_after _ (no_free_count _ I0)).
      rewrite (no_free_count _ I0), (no_free_no_access_after _ Hd), Hd.
      rewrite destroy_log_frees_last. reflexivity.
Qed.

Lemma uint8_succ_zero c : 0 <= c <= 255 -> (uint8 (c + 1) =? 0) = (c =? 255).
Proof.
  intros Hc. destruct (Z.eqb_spec c 255) as [->|N]; [reflexivity|].
  rewrite uint8_small by lia. apply Z.eqb_neq. lia.
Qed.

Ltac inv_side :=
  cbn;
  first
    [ assumption
    | reflexivity
    | lia
    | congruence
    | rewrite ?existsb_app, ?lcdinfo_log_quiet; reflexivity
    | let A := fresh in let B := fresh in
      intros [A B]; cbn in *; first [lia | congruence | tauto] ].

Ltac unheld_side :=
  cbn;
  first
    [ assumption
    | reflexivity
    | lia
    | congruence
    | symmetry; apply negb_involutive
    | match goal with H : unlinked _ = _ |- _ => rewrite H; reflexivity end
    | rewrite ?existsb_app, ?lcdinfo_log_quiet; reflexivity
    | let A := fresh in let B := fresh in
      intros [A B]; cbn in *; first [lia | congruence | tauto] ].

Lemma reachable_live v w :
  lifecycle_inv (v, w) -> reachable v = true -> allocated w = true.
Proof.
  intros [Ih _ Iu _ _ Igone] L. proj_simpl_in.
  destruct (allocated w) eqn:A; [reflexivity|].
  destruct (Igone eq_refl) as (_ & _ & C & U).
  unfold reachable in L. rewrite U in Iu.
  destruct (linked v); [discriminate|]. cbn in L.
  destruct (Z.ltb_spec 0 (handles v)); [lia | discriminate].
Qed.

Lemma vfs_step_inv cfg c s s' :
  lifecycle_inv s -> vfs_step cfg c s = Some s' -> lifecycle_inv s'.
Proof.
  destruct s as [v w]. intros I Hs.
  pose proof I as [Ih I8 Iu _ _ Igone]. proj_simpl_in.
  destruct c as [r|r|]; cbn [vfs_step] in Hs.
  - (* open: the node is linked or a file is open, so the instance is live *)
    destruct (reachable v) eqn:L; [|discriminate].
    pose proof (reachable_live _ _ I L) as Ha.
    destruct (inv_live _ I Ha) as [_ Hn]. proj_simpl_in.
    destruct (Z.lt_ge_cases r 0) as [Hr|Hr].
    + destruct (wait_refused cfg r w Hr) as [E _]. rewrite E in Hs.
      destruct (Z.ltb_spec r 0); [|lia]. injection Hs as <-.
      apply (quiet_step v); inv_side.
    + rewrite (open_eq cfg r w Hr) in Hs. cbn zeta in Hs.
      rewrite uint8_succ_zero in Hs by lia.
      destruct (Z.eqb_spec (crefs (priv w)) 255) as [E|E];
        cbn in Hs; injection Hs as <-.
      * apply (quiet_step v); inv_side.
      * rewrite uint8_small by lia. apply (quiet_step v); inv_side.
  - (* close: a file is open, so the instance is live *)
    destruct (Z.ltb_spec 0 (handles v)) as [Hh|Hh]; [|discriminate].
    injection Hs as <-.
    assert (allocated w = true) as Ha.
    { destruct (allocated w) eqn:A; [reflexivity|].
      destruct (Igone eq_refl) as (_ & _ & C & _). lia. }
    destruct (Z.lt_ge_cases r 0) as [Hr|Hr].
    + destruct (wait_refused cfg r w Hr) as [_ E]. rewrite E. cbn [snd].
      apply (quiet_step v); inv_side.
    + rewrite (close_eq cfg r w Hr). cbn zeta.
      destruct (Z.leb_spec (crefs (priv w)) 1) as [C|C].
      * destruct (unlinked (priv w)) eqn:U; cbn [snd].
        -- rewrite (app_assoc (lcdinfo_log cfg)).
           assert (linked v = false) as L
             by (destruct (linked v); [discriminate | reflexivity]).
           apply (destroy_step v); inv_side.
        -- apply (quiet_step v); inv_side.
      * cbn [snd]. rewrite uint8_small by lia.
        apply (quiet_step v); inv_side.
  - (* unlink: the node is linked or a file is open, so the instance is live *)
    destruct (reachable v) eqn:L; [|discriminate]. injection Hs as <-.
    pose proof (reachable_live _ _ I L) as Ha.
    destruct (inv_live _ I Ha) as [_ Hn]. proj_simpl_in.
    rewrite unlink_eq. cbn zeta. cbn [crefs with_unlinked].
    destruct (Z.eqb_spec (crefs (priv w)) 0) as [C|C]; cbn [snd].
    + apply (destroy_step v w _ _ _ [Wr Unlinked; Rd Crefs]); inv_side.
    + apply (quiet_step v); inv_side.
Qed.

Lemma vfs_run_inv cfg cs : forall s s',
  lifecycle_inv s -> vfs_run cfg cs s = Some s' -> lifecycle_inv s'.
Proof.
  induction cs as [|c cs IH]; cbn; intros s s' I Hs.
  - now injection Hs as <-.
  - destruct (vfs_step cfg c s) as [s1|] eqn:E; [|discriminate].
    eapply IH; [|exact Hs]. eapply vfs_step_inv; eassumption.
Qed.

Lemma vfs_run_world cfg cs : forall v w s',
  vfs_run cfg cs (v, w) = Some s' -> snd s' = run_calls cfg cs w.
Proof.
  induction cs as [|c cs IH]; cbn [vfs_run run_calls]; intros v w s' Hs.
  - now injection Hs as <-.
  - destruct (vfs_step cfg c (v, w)) as [[v1 w1]|] eqn:E; [|discriminate].
    rewrite (IH _ _ _ Hs). f_equal.
    destruct c as [r|r|]; cbn [vfs_step do_call] in *.
    + destruct (reachable v); [|discriminate].
      destruct (ft80x_open cfg r w). now injection E as _ <-.
    + destruct (0 <? handles v); [|discriminate]. now injection E as _ <-.
    + destruct (reachable v); [|discriminate]. now injection E as _ <-.
Qed.

Lemma vfs_step_exact cfg c s s' :
  lifecycle_inv s ->
  handles (fst s) = crefs (priv (snd s)) ->
  waits_succeed [c] = true ->
  vfs_step cfg c s = Some s' ->
  handles (fst s') = crefs (priv (snd s')).
Proof.
  destruct s as [v w]. intros [Ih I8 _ _ _ _] He Hw Hs. proj_simpl_in.
  destruct c as [r|r|]; cbn [vfs_step] in Hs; cbn in Hw.
  - destruct (reachable v); [|discriminate].
    assert (0 <= r) as Hr by (destruct (Z.leb_spec 0 r); [lia | discriminate]).
    rewrite (open_eq cfg r w Hr) in Hs. cbn zeta in Hs.
    rewrite uint8_succ_zero in Hs by lia.
    destruct (Z.eqb_spec (crefs (priv w)) 255) as [E|E];
      cbn in Hs; injection Hs as <-; cbn; [assumption|].
    rewrite uint8_small by lia. lia.
  - destruct (Z.ltb_spec 0 (handles v)) as [Hh|Hh]; [|discriminate].
    injection Hs as <-.
    assert (0 <= r) as Hr by (destruct (Z.leb_spec 0 r); [lia | discriminate]).
    rewrite (close_eq cfg r w Hr). cbn zeta.
    destruct (Z.leb_spec (crefs (priv w)) 1) as [C|C].
    + destruct (unlinked (priv w)); cbn; lia.
    + cbn. rewrite uint8_small by lia. lia.
  - destruct (reachable v); [|discriminate]. injection Hs as <-.
    rewrite unlink_eq. cbn zeta. cbn [crefs with_unlinked].
    destruct (crefs (priv w) =? 0); cbn; assumption.
Qed.

Lemma vfs_run_exact cfg cs : forall s s',
  lifecycle_inv s ->
  handles (fst s) = crefs (priv (snd s)) ->
  waits_succeed cs = true ->
  vfs_run cfg cs s = Some s' ->
  handles (fst s') = crefs (priv (snd s')).
Proof.
  induction cs as [|c cs IH]; cbn [vfs_run]; intros s s' I He Hw Hs.
  - now injection Hs as <-.
  - destruct (vfs_step cfg c s) as [s1|] eqn:E; [|discriminate].
    cbn in Hw. apply andb_prop in Hw as [Hc Hcs].
    apply (IH s1 s'); try assumption.
    + eapply vfs_step_inv; eassumption.
    + eapply vfs_step_exact; try eassumption. cbn. now rewrite Hc.
Qed.

(** ** Sequences of calls *)

Lemma fresh_unheld w : fresh w -> lifecycle_inv (unheld w, w).
Proof.
  intros Hf. pose proof (fresh_inv w Hf) as I.
  destruct Hf as (_ & _ & Hu & _). unfold unheld. now rewrite Hu.
Qed.

(** Any call on a live instance keeps the invariant, whoever makes it. *)
Lemma call_keeps_inv cfg c w :
  lifecycle_inv (unheld w, w) -> allocated w = true ->
  lifecycle_inv (unheld (snd (do_call cfg c w)), snd (do_call cfg c w)).
Proof.
  intros I Ha. pose proof I as [Ih I8 _ _ _ _].
  destruct (inv_live _ I Ha) as [_ Hn]. proj_simpl_in. cbn [unheld handles] in Ih.
  destruct c as [r|r|]; cbn [do_call].
  - destruct (Z.lt_ge_cases r 0) as [Hr|Hr].
    + destruct (wait_refused cfg r w Hr) as [-> _]. cbn [snd].
      apply (quiet_step (unheld w)); unheld_side.
    + rewrite (open_eq cfg r w Hr). cbn zeta.
      rewrite uint8_succ_zero by lia.
      destruct (Z.eqb_spec (crefs (priv w)) 255) as [E|E]; cbn [snd].
      * apply (quiet_step (unheld w)); unheld_side.
      * rewrite uint8_small by lia. apply (quiet_step (unheld w)); unheld_side.
  - destruct (Z.lt_ge_cases r 0) as [Hr|Hr].
    + destruct (wait_refused cfg r w Hr) as [_ ->]. cbn [snd].
      apply (quiet_step (unheld w)); unheld_side.
    + rewrite (close_eq cfg r w Hr). cbn zeta.
      destruct (Z.leb_spec (crefs (priv w)) 1) as [C|C].
      * destruct (unlinked (priv w)) eqn:U; cbn [snd].
        -- rewrite (app_assoc (lcdinfo_log cfg)).
           apply (destroy_step (unheld w)); unheld_side.
        -- apply (quiet_step (unheld w)); unheld_side.
      * cbn [snd]. rewrite uint8_small by lia.
        apply (quiet_step (unheld w)); unheld_side.
  - rewrite unlink_eq. cbn zeta. cbn [crefs with_unlinked].
    destruct (Z.eqb_spec (crefs (priv w)) 0) as [C|C]; cbn [snd].
    + apply (destroy_step (unheld w) w _ _ _ [Wr Unlinked; Rd Crefs]);
        unheld_side.
    + apply (quiet_step (unheld w)); unheld_side.
Qed.

Lemma calls_keep_inv cfg cs : forall w,
  lifecycle_inv (unheld w, w) -> calls_find_instance cfg cs w = true ->
  lifecycle_inv (unheld (run_calls cfg cs w), run_calls cfg cs w).
Proof.
  induction cs as [|c cs IH]; cbn [calls_find_instance run_calls]; intros w I Hc.
  - exact I.
  - apply andb_prop in Hc as [Ha Hc].
    apply IH; [|exact Hc]. now apply call_keeps_inv.
Qed.

(** The calls the file system issues all find the instance. *)
Lemma vfs_calls_find_instance cfg cs : forall v w s',
  lifecycle_inv (v, w) -> vfs_run cfg cs (v, w) = Some s' ->
  calls_find_instance cfg cs w = true.
Proof.
  induction cs as [|c cs IH]; cbn [vfs_run calls_find_instance];
    intros v w s' I Hs; [reflexivity|].
  destruct (vfs_step cfg c (v, w)) as [[v1 w1]|] eqn:E; [|discriminate].
  pose proof (vfs_step_inv _ _ _ _ I E) as I1.
  assert (reachable v = true /\ w1 = snd (do_call cfg c w)) as [L ->].
  { destruct c as [r|r|]; cbn [vfs_step] in E; cbn [do_call].
    - destruct (reachable v); [|discriminate].
      destruct (ft80x_open cfg r w). injection E as _ <-. now split.
    - unfold reachable. destruct (0 <? handles v); [|discriminate].
      injection E as _ <-. split; [apply orb_true_r | reflexivity].
    - destruct (reachable v); [|discriminate]. injection E as _ <-. now split. }
  rewrite (reachable_live _ _ I L). cbn [andb]. exact (IH _ _ _ I1 Hs).
Qed.

(** C1, as amended: along every sequence of open(), close() and unlink()
    calls on a fresh instance in which no call is made on the instance once
    it has been destroyed, ft80x_destroy frees the instance at most once;
    it has done so exactly when referenceCount is 0 and unlinked is set,
    each kmm_free happened with referenceCount == 0 and unlinked == true in
    the instance, and after the free nothing uses the instance any more,
    neither a field nor the semaphore.  When the calls are those the file
    system issues (a call only while the node is linked or a file is open,
    a close only for a file that is open) and every lock wait succeeded,
    the instance has been freed exactly when the node was unlinked and no
    file is left open. *)
Theorem destroyed_once_when_unlinked_and_closed cfg cs w :
  fresh w ->
  calls_find_instance cfg cs w = true ->
  let w' := run_calls cfg cs w in
  (destroy_count (log w') <= 1)%nat /\
  (destroy_count (log w') = 1%nat <->
     crefs (priv w') = 0 /\ unlinked (priv w') = true) /\
  (destroy_count (log w') = 1%nat <-> allocated w' = false) /\
  freed_when_due (log w') /\
  access_after_free (log w') = false /\
  (forall v', vfs_run cfg cs (vfs_start, w) = Some (v', w') ->
     waits_succeed cs = true ->
     (destroy_count (log w') = 1%nat <->
        linked v' = false /\ handles v' = 0)).
Proof.
  intros Hf Hcs w'.
  pose proof (calls_keep_inv cfg cs w (fresh_unheld w Hf) Hcs) as I.
  fold w' in I.
  destruct I as [_ _ _ Idue Ilive Igone]. proj_simpl_in.
  assert (destroy_count (log w') = (if allocated w' then 0 else 1)%nat) as Hn.
  { destruct (allocated w'); [now apply Ilive | now apply Igone]. }
  assert (crefs (priv w') = 0 /\ unlinked (priv w') = true <->
          allocated w' = false) as Hd.
  { destruct (allocated w') eqn:A.
    - destruct (Ilive eq_refl) as [_ N]. split; [tauto | discriminate].
    - destruct (Igone eq_refl) as (_ & _ & C & U). tauto. }
  split; [|split; [|split; [|split; [|split]]]].
  - rewrite Hn. destruct (allocated w'); lia.
  - rewrite Hd, Hn. destruct (allocated w'); split; congruence.
  - rewrite Hn. destruct (allocated w'); split; congruence.
  - exact Idue.
  - destruct (allocated w') eqn:A.
    + apply no_free_no_access_after, no_free_count. now apply Ilive.
    + now apply Igone.
  - intros v' Hrun Hok.
    pose proof (vfs_run_inv _ _ _ _ (fresh_inv w Hf) Hrun) as [_ _ Iu _ _ _].
    proj_simpl_in.
    assert (handles v' = crefs (priv w')) as He.
    { apply (vfs_run_exact cfg cs (vfs_start, w) (v', w'));
        try assumption; [now apply fresh_inv|].
      destruct Hf as (_ & C & _). cbn. now rewrite C. }
    assert (destroy_count (log w') = 1%nat <-> allocated w' = false) as ->
      by (rewrite Hn; destruct (allocated w'); split; congruence).
    rewrite <- Hd, He, Iu.
    destruct (linked v'); cbn; intuition congruence.
Qed.

(** ** The lock *)

Lemma appended_by_after {A} (m : M A) w r p a d :
  m w = (r, after w p a d) -> appended_by m w = d.
Proof.
  intros E. unfold appended_by. rewrite E. cbn.
  rewrite skipn_app, skipn_all, Nat.sub_diag. reflexivity.
Qed.

Lemma appended_by_same {A} (m : M A) w r : m w = (r, w) -> appended_by m w = [].
Proof. intros E. unfold appended_by. rewrite E. cbn. apply skipn_all. Qed.

(** C2 (the code departs from the specification in ft80x_unlink): open()
    and close() do what the claim asks; they take the lock before every
    access to referenceCount and unlinked that decides what they do, and
    keep it until they post it or destroy it with the instance (the one
    access outside is the crefs read of the lcdinfo line at entry, when
    that line is compiled in), and when the wait for the lock fails they
    touch neither field beyond that line.  ft80x_unlink does not: in every
    state it writes unlinked and reads referenceCount, and its log holds no
    wait for the lock, so both accesses are made without it. *)
Theorem open_close_hold_lock_unlink_takes_none cfg waitret w :
  (0 <= waitret ->
   exists d1 d2,
     appended_by (ft80x_open cfg waitret) w = lcdinfo_log cfg ++ SemWait :: d1 /\
     appended_by (ft80x_close cfg waitret) w = lcdinfo_log cfg ++ SemWait :: d2 /\
     locked_accesses true d1 = true /\ ends_released d1 = true /\
     locked_accesses true d2 = true /\ ends_released d2 = true) /\
  (waitret < 0 ->
     appended_by (ft80x_open cfg waitret) w = lcdinfo_log cfg /\
     appended_by (ft80x_close cfg waitret) w = lcdinfo_log cfg) /\
  (exists d, appended_by ft80x_unlink w = Wr Unlinked :: Rd Crefs :: d) /\
  ~ In SemWait (appended_by ft80x_unlink w) /\
  locked_accesses false (appended_by ft80x_unlink w) = false.
Proof.
  split; [|split; [|split; [|split]]].
  - intros Hr.
    pose proof (open_eq cfg waitret w Hr) as Eo.
    pose proof (close_eq cfg waitret w Hr) as Ec. cbn zeta in Eo, Ec.
    unfold destroy_log in Ec. cbn [lower with_exclsem with_crefs] in Ec.
    destruct (uint8 (crefs (priv w) + 1) =? 0);
      destruct (crefs (priv w) <=? 1);
      destruct (unlinked (priv w));
      destruct (lower (priv w)) as [[i o [|]]|];
      rewrite (appended_by_after _ _ _ _ _ _ Eo);
      rewrite (appended_by_after _ _ _ _ _ _ Ec);
      refine (ex_intro _ _ (ex_intro _ _ _));
      repeat split; reflexivity.
  - intros Hr. destruct (wait_refused cfg waitret w Hr) as [Eo Ec].
    now rewrite (appended_by_after _ _ _ _ _ _ Eo), (appended_by_after _ _ _ _ _ _ Ec).
  - pose proof (unlink_eq w) as E. cbn zeta in E.
    destruct (crefs (with_unlinked true (priv w)) =? 0);
      rewrite (appended_by_after _ _ _ _ _ _ E); eexists; reflexivity.
  - pose proof (unlink_eq w) as E. cbn zeta in E.
    destruct (crefs (with_unlinked true (priv w)) =? 0);
      rewrite (appended_by_after _ _ _ _ _ _ E); unfold destroy_log;
      cbn [lower with_unlinked];
      destruct (lower (priv w)) as [[i o [|]]|]; cbn; intuition discriminate.
  - pose proof (unlink_eq w) as E. cbn zeta in E.
    destruct (crefs (with_unlinked true (priv w)) =? 0);
      rewrite (appended_by_after _ _ _ _ _ _ E); reflexivity.
Qed.

(** ** The command dispatcher *)

Lemma land_3_mod_4 x : Z.land x 3 = x mod 4.
Proof. change 3 with (Z.ones 2). rewrite Z.land_ones by lia. reflexivity. Qed.

Section DriverFacts.

Context {hdr : ft80x_h}.
Variable hw : list event -> Z -> Z.
Variable cfg : config_t.

Lemma write_eq waitret buffer len w :
  0 <= waitret ->
  ft80x_write waitret buffer len w =
  if request_refused buffer len then (- EINVAL, w)
  else (len, after w (with_exclsem (relock (exclsem (priv w))) (priv w))
               (allocated w)
               [SemWait; WriteMemory FT80X_RAM_DL buffer len; SemPost]).
Proof.
  intros Hr. unfold request_refused. rewrite <- !land_3_mod_4.
  destruct w as [p a m n l]. destruct p as [s lo f e c u]. run_driver.
  destruct ((buffer =? 0) || negb (Z.land buffer 3 =? 0) || (len =? 0)
            || negb (Z.land len 3 =? 0) || (FT80X_RAM_DL_SIZE <? len));
    [reflexivity|].
  destruct (Z.ltb_spec waitret 0); [lia|]. tidy_log. reflexivity.
Qed.

Lemma putdisplaylist_eq waitret dl w :
  0 <= waitret ->
  ft80x_ioctl hw waitret FT80XIOC_PUTDISPLAYLIST dl w =
  let dlsize := uint32 (umem w (dl + offsetof_dlsize)) in
  if (dl =? 0) || negb (Z.land (dl + offsetof_cmd) 3 =? 0) ||
     (dlsize =? 0) || negb (Z.land dlsize 3 =? 0) ||
     (FT80X_RAM_DL_SIZE <? dlsize)
  then
    (- EINVAL, after w (with_exclsem (relock (exclsem (priv w))) (priv w))
                 (allocated w) [SemWait; SemPost])
  else
    (OK, after w (with_exclsem (relock (exclsem (priv w))) (priv w))
           (allocated w)
           [SemWait; WriteMemory FT80X_RAM_DL (dl + offsetof_cmd) dlsize;
            SemPost]).
Proof.
  intros Hr.
  destruct w as [p a m n l]. destruct p as [s lo f e c u]. run_driver.
  destruct (Z.ltb_spec waitret 0); [lia|]. cbn.
  destruct (Z.ltb_spec waitret 0); [lia|]. cbn.
  set (dlsize := uint32 (m (dl + offsetof_dlsize))).
  destruct ((dl =? 0) || negb (Z.land (dl + offsetof_cmd) 3 =? 0) ||
            (dlsize =? 0) || negb (Z.land dlsize 3 =? 0) ||
            (FT80X_RAM_DL_SIZE <? dlsize)); tidy_log; reflexivity.
Qed.

Lemma getresult32_eq waitret result w :
  0 <= waitret ->
  ft80x_ioctl hw waitret FT80XIOC_GETRESULT32 result w =
  let offset := uint32 (umem w (result + offsetof_offset)) in
  if (result =? 0) || negb (Z.land (result + offsetof_offset) 3 =? 0) ||
     (FT80X_RAM_DL_SIZE <=? offset)
  then
    (- EINVAL, after w (with_exclsem (relock (exclsem (priv w))) (priv w))
                 (allocated w) [SemWait; SemPost])
  else
    let addr := uint32 (FT80X_RAM_DL + offset) in
    (OK, set_umem (fun a => if a =? result + offsetof_value
                            then uint32 (hw (log w ++ [SemWait]) addr)
                            else umem w a)
           (after w (with_exclsem (relock (exclsem (priv w))) (priv w))
              (allocated w) [SemWait; ReadWord addr; SemPost])).
Proof.
  intros Hr.
  destruct w as [p a m n l]. destruct p as [s lo f e c u]. run_driver.
  destruct (Z.ltb_spec waitret 0); [lia|]. cbn.
  destruct (Z.ltb_spec waitret 0); [lia|]. cbn.
  set (offset := uint32 (m (result + offsetof_offset))).
  destruct ((result =? 0) || negb (Z.land (result + offsetof_offset) 3 =? 0)
            || (FT80X_RAM_DL_SIZE <=? offset)); tidy_log; reflexivity.
Qed.

(** C7: with the lock acquired, write(buffer, len) and the
    PUTDISPLAYLIST command on a display-list structure whose cmd member
    is the buffer and whose dlsize member holds len do the same: when the
    request is refused in the specification's sense (null or misaligned
    pointer, length zero, not a multiple of 4, or above the capacity) both
    return -EINVAL and call the transport not at all; otherwise both make
    the one call ft80x_write_memory(FT80X_RAM_DL, buffer, len), write
    returning len and the command OK, and leave the same instance behind.
    A null structure pointer is refused by the command in the same way. *)
Theorem write_is_putdisplaylist waitret buffer len w :
  0 <= waitret ->
  let wr := ft80x_write waitret buffer len in
  (if request_refused buffer len
   then fst (wr w) = - EINVAL /\ bus_ops (appended_by wr w) = []
   else fst (wr w) = len /\
        bus_ops (appended_by wr w) = [WriteMemory FT80X_RAM_DL buffer len]) /\
  (forall dl,
     0 < dl -> 0 <= offsetof_cmd ->
     dl + offsetof_cmd = buffer ->
     uint32 (umem w (dl + offsetof_dlsize)) = len ->
     let io := ft80x_ioctl hw waitret FT80XIOC_PUTDISPLAYLIST dl in
     bus_ops (appended_by io w) = bus_ops (appended_by wr w) /\
     (fst (io w) = - EINVAL <-> request_refused buffer len = true) /\
     (fst (wr w) = - EINVAL <-> request_refused buffer len = true) /\
     (request_refused buffer len = false ->
        fst (io w) = OK /\ priv (snd (io w)) = priv (snd (wr w)))) /\
  (let io := ft80x_ioctl hw waitret FT80XIOC_PUTDISPLAYLIST 0 in
   fst (io w) = - EINVAL /\ bus_ops (appended_by io w) = []).
Proof.
  intros Hr wr. subst wr.
  pose proof (write_eq waitret buffer len w Hr) as Ew.
  split; [|split].
  - destruct (request_refused buffer len).
    + rewrite (appended_by_same _ _ _ Ew), Ew. split; reflexivity.
    + rewrite (appended_by_after _ _ _ _ _ _ Ew), Ew. split; reflexivity.
  - intros dl Hdl Hoff Hbuf Hlen io. subst io.
    pose proof (putdisplaylist_eq waitret dl w Hr) as Ei. cbn zeta in Ei.
    rewrite Hlen, Hbuf, !land_3_mod_4 in Ei.
    assert (request_refused buffer len =
            (dl =? 0) || negb (buffer mod 4 =? 0) || (len =? 0)
            || negb (len mod 4 =? 0) || (FT80X_RAM_DL_SIZE <? len)) as Hsame.
    { unfold request_refused.
      destruct (Z.eqb_spec dl 0); [lia|].
      destruct (Z.eqb_spec buffer 0); [lia|]. reflexivity. }
    rewrite <- Hsame in Ei.
    assert (0 <= len) as Hpos
      by (rewrite <- Hlen; unfold uint32; apply Z.mod_pos_bound; lia).
    destruct (request_refused buffer len) eqn:R.
    + rewrite (appended_by_after _ _ _ _ _ _ Ei), (appended_by_same _ _ _ Ew).
      rewrite Ei, Ew. cbn. intuition discriminate.
    + rewrite (appended_by_after _ _ _ _ _ _ Ei), (appended_by_after _ _ _ _ _ _ Ew).
      rewrite Ei, Ew. cbn. unfold EINVAL, OK.
      repeat split; try reflexivity; intros; try discriminate; lia.
  - intros io. subst io.
    pose proof (putdisplaylist_eq waitret 0 w Hr) as Ei. cbn zeta in Ei.
    cbn [Z.eqb orb] in Ei.
    rewrite (appended_by_after _ _ _ _ _ _ Ei), Ei. split; reflexivity.
Qed.

(** C8 (the code departs from the specification): with the lock acquired,
    GETRESULT32 is refused with -EINVAL, and nothing is read, exactly when
    the structure pointer is null, the address of its offset member is not
    word-aligned, or the offset is not below the display-list capacity.
    The alignment of the offset itself is not tested: every offset below
    the capacity, aligned or not, is answered with OK and the word read at
    FT80X_RAM_DL + offset.  So capacity - 4 succeeds, capacity fails, and
    an offset such as 2 succeeds as well. *)
Theorem getresult32_tests_member_address waitret result w :
  0 <= waitret ->
  let offset := uint32 (umem w (result + offsetof_offset)) in
  let io := ft80x_ioctl hw waitret FT80XIOC_GETRESULT32 result in
  if (result =? 0) || negb ((result + offsetof_offset) mod 4 =? 0) ||
     (FT80X_RAM_DL_SIZE <=? offset)
  then fst (io w) = - EINVAL /\ bus_ops (appended_by io w) = []
  else
    fst (io w) = OK /\
    bus_ops (appended_by io w) = [ReadWord (uint32 (FT80X_RAM_DL + offset))] /\
    umem (snd (io w)) (result + offsetof_value) =
      uint32 (hw (log w ++ [SemWait]) (uint32 (FT80X_RAM_DL + offset))).
Proof.
  intros Hr offset io. subst offset io.
  pose proof (getresult32_eq waitret result w Hr) as E. cbn zeta in E.
  rewrite land_3_mod_4 in E.
  destruct ((result =? 0) || negb ((result + offsetof_offset) mod 4 =? 0) ||
            (FT80X_RAM_DL_SIZE <=? uint32 (umem w (result + offsetof_offset)))).
  - rewrite (appended_by_after _ _ _ _ _ _ E), E. split; reflexivity.
  - unfold appended_by. rewrite E. cbn.
    rewrite skipn_app, skipn_all, Nat.sub_diag, Z.eqb_refl.
    repeat split; reflexivity.
Qed.

(** *** Bring-up *)

Lemma uint8_range x : 0 <= uint8 x < 256.
Proof. unfold uint8. apply Z.mod_pos_bound. reflexivity. Qed.

Lemma uint8_is_no_romid x c : (uint8 x =? ROMID c) = false.
Proof.
  apply Z.eqb_neq. pose proof (uint8_range x). destruct c; cbn; lia.
Qed.

Lemma initialize_eq w :
  ft80x_initialize hw cfg w =
  let p := with_frequency (init_frequency_of (priv w)) (priv w) in
  if negb (Z.land (chip_id_seen hw w) ID_MASK =? 0x7c) then
    (- ENODEV, after w p (allocated w) (wake_log ++ [ReadWord FT80X_REG_ID]))
  else
    (- ENODEV, after w p (allocated w)
                 (wake_log ++
                  [ReadWord FT80X_REG_ID; ReadWord FT80X_ROM_CHIPID])).
Proof.
  destruct w as [p a m n l]. destruct p as [s lo f e c u].
  unfold ft80x_initialize, ft80x_host_command, ft80x_read_word, emit,
    modify_priv, bind, ret, after, chip_id_seen, wake_log, init_frequency_of.
  tidy_log.
  destruct (Z.land _ ID_MASK =? 124); cbn; [|reflexivity].
  rewrite uint8_is_no_romid. cbn. rewrite <- !app_assoc. reflexivity.
Qed.

(** C3 (the code departs from the specification): whatever the device answers,
    ft80x_initialize returns -ENODEV.  It stops after the chip-identity
    read when the masked identity differs from 0x7c; otherwise it reads
    the ROM identity word into the uint8_t variable regval32, which never
    equals ROMID, and stops there: register programming is not reached
    even by a device that answers both reads as expected. *)
Theorem initialize_always_reports_no_device w :
  let init := ft80x_initialize hw cfg in
  fst (init w) = - ENODEV /\
  bus_ops (appended_by init w) =
    [HostCommand FT80X_CMD_CLKEXT; HostCommand FT80X_CMD_ACTIVE;
     ReadWord FT80X_REG_ID] ++
    (if Z.land (chip_id_seen hw w) ID_MASK =? 0x7c
     then [ReadWord FT80X_ROM_CHIPID] else []).
Proof.
  intros init. subst init. pose proof (initialize_eq w) as E. cbn zeta in E.
  destruct (Z.land (chip_id_seen hw w) ID_MASK =? 124);
    cbn [negb] in E; rewrite (appended_by_after _ _ _ _ _ _ E), E;
    split; reflexivity.
Qed.

(** C9 (the code departs from the specification): the transport calls that
    ft80x_initialize records are the two host commands and the identity
    reads.  No register is written, the pixel clock is never touched, no
    display list is written; the instance is left at the initial
    frequency, the switch to the operating frequency does not happen. *)
Theorem initialize_records_no_register_write w :
  let init := ft80x_initialize hw cfg in
  existsb is_bus_write (appended_by init w) = false /\
  ~ In (WriteByte FT80X_REG_PCLK 0) (appended_by init w) /\
  ~ In (WriteByte FT80X_REG_PCLK 5) (appended_by init w) /\
  frequency (priv (snd (init w))) = init_frequency_of (priv w).
Proof.
  intros init. subst init. pose proof (initialize_eq w) as E. cbn zeta in E.
  destruct (negb (Z.land (chip_id_seen hw w) ID_MASK =? 124));
    rewrite (appended_by_after _ _ _ _ _ _ E), E; cbn;
    repeat split; try reflexivity; intuition discriminate.
Qed.

(** The statements that follow the identity checks are in the order the
    specification gives: the pixel clock is set to 0, the thirteen timing
    registers are written, then the three words of the first display list
    and the swap register, then the two GPIO registers, and the pixel clock
    is enabled last; after that the operating frequency is selected. *)
Lemma program_display_order w :
  let d := appended_by (program_display hw cfg) w in
  List.length d = 23%nat /\
  firstn 1 d = [WriteByte FT80X_REG_PCLK 0] /\
  forallb is_bus_write (firstn 13 (skipn 1 d)) = true /\
  firstn 4 (skipn 14 d) =
    [WriteWord (FT80X_RAM_DL + 0) (FT80X_CLEAR_COLOR_RGB 0 0 0);
     WriteWord (FT80X_RAM_DL + 4) (FT80X_CLEAR 1 1 1);
     WriteWord (FT80X_RAM_DL + 8) FT80X_DISPLAY;
     WriteByte FT80X_REG_DLSWAP DLSWAP_FRAME] /\
  skipn 22 d = [WriteByte FT80X_REG_PCLK 5] /\
  fst (program_display hw cfg w) = OK /\
  frequency (priv (snd (program_display hw cfg w))) =
    match lower (priv w) with Some l => op_frequency l | None => 0 end.
Proof.
  destruct w as [p a m n l]. destruct p as [s lo f e c u].
  unfold appended_by, program_display.
  destruct (display cfg);
    cbv [timing_registers ft80x_write_byte ft80x_write_hword
         ft80x_write_word ft80x_read_byte emit modify_priv bind ret set_log
         set_priv log priv allocated umem nodes fst snd with_frequency
         frequency lower];
    repeat rewrite <- app_assoc;
    rewrite skipn_app, skipn_all, Nat.sub_diag;
    cbn [app skipn firstn List.length forallb is_bus_write andb];
    repeat split; reflexivity.
Qed.

(** *** Registration *)

(** C4 (the code departs from the specification): once kmm_zalloc has succeeded,
    ft80x_register fails with -ENODEV in ft80x_initialize, creates no
    node and destroys the semaphore, but it does not free the instance:
    the block is still owned when the error is returned. *)
Theorem register_failure_keeps_the_instance regret spi_dev lower_cfg w :
  let reg := ft80x_register hw cfg true regret spi_dev lower_cfg in
  fst (reg w) = - ENODEV /\
  nodes (snd (reg w)) = nodes w /\
  exclsem (priv (snd (reg w))) = None /\
  In KmmZalloc (appended_by reg w) /\
  In SemInit (appended_by reg w) /\
  In SemDestroy (appended_by reg w) /\
  destroy_count (appended_by reg w) = 0%nat /\
  allocated (snd (reg w)) = true.
Proof.
  intros reg. subst reg.
  assert (exists d,
    ft80x_register hw cfg true regret spi_dev lower_cfg w =
    (- ENODEV,
     after w (with_exclsem None
                (with_frequency (init_frequency lower_cfg)
                   (with_exclsem (Some 1)
                      (with_spi spi_dev (with_lower (Some lower_cfg) zeroed)))))
       true
       ([KmmZalloc; SemInit] ++ wake_log ++ ReadWord FT80X_REG_ID :: d ++ [SemDestroy])) /\
    (d = [] \/ d = [ReadWord FT80X_ROM_CHIPID])) as (d & E & Hd).
  { unfold ft80x_register, kmm_zalloc, sem_init, sem_destroy, emit,
      modify_priv, bind, ret.
    cbn [negb]. rewrite initialize_eq. cbn zeta.
    destruct (negb (Z.land _ ID_MASK =? 124)).
    - exists []. split; [|now left]. destruct w. cbn.
      rewrite <- !app_assoc. reflexivity.
    - exists [ReadWord FT80X_ROM_CHIPID]. split; [|now right].
      destruct w. cbn. rewrite <- !app_assoc. reflexivity. }
  rewrite (appended_by_after _ _ _ _ _ _ E), E.
  destruct Hd as [-> | ->]; cbn; intuition.
Qed.

End DriverFacts.

(** ** Concrete runs *)

(** C1 as the specification states it fails: a sequence without unlink()
    never destroys the instance, and a sequence with a call on the
    destroyed instance (unlink twice) destroys it twice and uses the freed
    instance. *)
Lemma every_sequence_destroys_once_fails :
  destroy_count
    (log (run_calls demo_cfg [Open 0; Close 0] (demo_instance 0 false no_words)))
    = 0%nat /\
  destroy_count
    (log (run_calls demo_cfg [Unlink; Unlink] (demo_instance 0 false no_words)))
    = 2%nat /\
  access_after_free
    (log (run_calls demo_cfg [Unlink; Unlink] (demo_instance 0 false no_words)))
    = true.
Proof. repeat split; reflexivity. Qed.

Lemma destroyed_once_when_unlinked_and_closed_witness :
  let cs := [Open 0; Unlink; Open 0; Unlink; Close 0; Close 0] in
  let w' := run_calls demo_cfg cs (demo_instance 0 false no_words) in
  vfs_run demo_cfg cs (vfs_start, demo_instance 0 false no_words)
    = Some ({| linked := false; handles := 0 |}, w') /\
  destroy_count (log w') = 1%nat /\ allocated w' = false /\
  access_after_free (log w') = false.
Proof.
  intros cs w'.
  assert (vfs_run demo_cfg cs (vfs_start, demo_instance 0 false no_words)
          = Some ({| linked := false; handles := 0 |}, w')) as Hrun
    by (vm_compute; reflexivity).
  destruct (destroyed_once_when_unlinked_and_closed demo_cfg cs
              (demo_instance 0 false no_words))
    as (_ & _ & Hgone & _ & Hsafe & Hseq).
  - repeat split; reflexivity.
  - vm_compute. reflexivity.
  - split; [exact Hrun|]. split; [|split; [|exact Hsafe]].
    + apply (Hseq _ Hrun); [reflexivity | split; reflexivity].
    + apply Hgone. apply (Hseq _ Hrun); [reflexivity | split; reflexivity].
Defined.

Lemma open_close_hold_lock_unlink_takes_none_witness :
  (exists d1 d2,
     appended_by (ft80x_open demo_cfg 0) (demo_instance 1 true no_words)
       = lcdinfo_log demo_cfg ++ SemWait :: d1 /\
     appended_by (ft80x_close demo_cfg 0) (demo_instance 1 true no_words)
       = lcdinfo_log demo_cfg ++ SemWait :: d2 /\
     locked_accesses true d1 = true /\ ends_released d1 = true /\
     locked_accesses true d2 = true /\ ends_released d2 = true) /\
  appended_by (ft80x_open demo_cfg (-4)) (demo_instance 1 true no_words)
    = lcdinfo_log demo_cfg /\
  appended_by ft80x_unlink (demo_instance 1 false no_words)
    = [Wr Unlinked; Rd Crefs] /\
  ~ In SemWait (appended_by ft80x_unlink (demo_instance 1 false no_words)) /\
  locked_accesses false
    (appended_by ft80x_unlink (demo_instance 1 false no_words)) = false.
Proof.
  destruct (open_close_hold_lock_unlink_takes_none demo_cfg 0
              (demo_instance 1 true no_words)) as (Hheld & _).
  destruct (open_close_hold_lock_unlink_takes_none demo_cfg (-4)
              (demo_instance 1 true no_words)) as (_ & Hrefused & _).
  destruct (open_close_hold_lock_unlink_takes_none demo_cfg 0
              (demo_instance 1 false no_words)) as (_ & _ & _ & Hnone & Hopen).
  split; [apply Hheld; lia|]. split; [apply Hrefused; lia|].
  split; [reflexivity|]. split; [exact Hnone | exact Hopen].
Defined.

(** What the missing lock of ft80x_unlink allows: the last close() of a
    node is preempted by unlink() after it has loaded unlinked == false;
    unlink() finds referenceCount == 0 and destroys the instance, and
    close() then posts the semaphore of the freed instance.  Without the
    preempting call the statements are those of ft80x_close. *)
Lemma unlocked_unlink_races_with_close :
  let w := demo_instance 1 false no_words in
  let w' := snd (ft80x_close_preempted demo_cfg 0 ft80x_unlink w) in
  (forall cfg r w0,
     ft80x_close_preempted cfg r (ret 0) w0 = ft80x_close cfg r w0) /\
  appended_by (ft80x_close_preempted demo_cfg 0 ft80x_unlink) w =
    [Rd Crefs; SemWait; Rd Crefs; Wr Crefs; Rd Unlinked;
     Wr Unlinked; Rd Crefs; LowerDestroy; SemDestroy;
     KmmFree (with_exclsem None (with_unlinked true (with_crefs 0
                (with_exclsem (Some 0) (priv w)))));
     SemPost] /\
  allocated w' = false /\
  access_after_free (log w') = true.
Proof.
  intros w w'. split; [|split; [|split]].
  - intros cfg r w0. reflexivity.
  - reflexivity.
  - reflexivity.
  - reflexivity.
Qed.

Lemma open_increments_or_saturates_witness :
  fst (ft80x_open demo_cfg 0 (demo_instance 255 false no_words)) = - EMFILE /\
  priv (snd (ft80x_open demo_cfg 0 (demo_instance 255 false no_words)))
    = priv (demo_instance 255 false no_words) /\
  fst (ft80x_open demo_cfg 0 (demo_instance 254 false no_words)) = OK /\
  crefs (priv (snd (ft80x_open demo_cfg 0 (demo_instance 254 false no_words))))
    = 255.
Proof.
  destruct (open_increments_or_saturates demo_cfg 0
              (demo_instance 255 false no_words)) as (Hfull & _);
    [lia | cbn; lia |].
  destruct (open_increments_or_saturates demo_cfg 0
              (demo_instance 254 false no_words)) as (_ & Hroom & _);
    [lia | cbn; lia |].
  destruct Hfull as (R1 & P1 & _); [reflexivity|].
  destruct Hroom as (R2 & P2 & _); [reflexivity|].
  repeat split; assumption.
Defined.

Lemma close_decrements_or_destroys_witness :
  crefs (priv (snd (ft80x_close demo_cfg 0 (demo_instance 3 true no_words)))) = 2 /\
  allocated (snd (ft80x_close demo_cfg 0 (demo_instance 1 true no_words))) = false /\
  allocated (snd (ft80x_close demo_cfg 0 (demo_instance 1 false no_words))) = true.
Proof.
  destruct (close_decrements_or_destroys demo_cfg 0
              (demo_instance 3 true no_words)) as (_ & _ & _ & Hmany & _);
    [lia | cbn; lia |].
  destruct (close_decrements_or_destroys demo_cfg 0
              (demo_instance 1 true no_words)) as (_ & _ & _ & _ & Hlast & _);
    [lia | cbn; lia |].
  destruct (close_decrements_or_destroys demo_cfg 0
              (demo_instance 1 false no_words)) as (_ & _ & _ & _ & _ & Hkeep);
    [lia | cbn; lia |].
  destruct Hmany as (P & _); [reflexivity|].
  destruct Hlast as (_ & A & _); [discriminate | reflexivity |].
  destruct Hkeep as (_ & A' & _); [discriminate | reflexivity |].
  repeat split; assumption.
Defined.

Lemma unlink_with_references_defers_witness :
  let w := demo_instance 2 false no_words in
  unlinked (priv w) = false /\
  fst (ft80x_unlink w) = OK /\
  unlinked (priv (snd (ft80x_unlink w))) = true /\
  crefs (priv (snd (ft80x_unlink w))) = 2 /\
  allocated (snd (ft80x_unlink w)) = true /\
  destroy_count (log (snd (ft80x_unlink w))) = 0%nat /\
  unlinked (priv (snd (ft80x_unlink (snd (ft80x_unlink w))))) = true.
Proof.
  intros w.
  destruct (unlink_with_references_defers w)
    as (R & U & _ & _ & _ & _ & _ & C & A & _ & _ & _ & D & _ & U2 & _);
    [cbn; lia|].
  split; [reflexivity|]. split; [exact R|]. split; [exact U|].
  split; [exact C|]. split; [exact A|]. split; [exact D|]. exact U2.
Defined.

Lemma write_is_putdisplaylist_witness :
  let w := demo_instance 1 false (word_at 0x2000 12) in
  fst (ft80x_write (hdr := ft800_h) 0 0x2004 12 w) = 12 /\
  bus_ops (appended_by (ft80x_write (hdr := ft800_h) 0 0x2004 12) w)
    = [WriteMemory 0x100000 0x2004 12] /\
  bus_ops (appended_by
             (ft80x_ioctl (hdr := ft800_h) genuine_ft800 0
                FT80XIOC_PUTDISPLAYLIST 0x2000) w)
    = bus_ops (appended_by (ft80x_write (hdr := ft800_h) 0 0x2004 12) w).
Proof.
  intros w.
  destruct (write_is_putdisplaylist (hdr := ft800_h) genuine_ft800 0 0x2004 12 w)
    as (Hw & Hio & _); [lia|].
  assert (request_refused (hdr := ft800_h) 0x2004 12 = false) as R
    by reflexivity.
  rewrite R in Hw. destruct Hw as (Hret & Hbus).
  destruct (Hio 0x2000) as (Hsame & _);
    [lia | cbn; lia | reflexivity | reflexivity |].
  repeat split; assumption.
Defined.

(** C8 on the failing input: the structure is at the aligned address
    0x3000 and asks for offset 2. *)
Lemma getresult32_tests_member_address_witness :
  let w := demo_instance 1 false (word_at 0x3000 2) in
  let io := ft80x_ioctl (hdr := ft800_h) genuine_ft800 0 FT80XIOC_GETRESULT32 0x3000 in
  fst (io w) = OK /\
  bus_ops (appended_by io w) = [ReadWord 0x100002].
Proof.
  intros w io.
  pose proof (getresult32_tests_member_address (hdr := ft800_h) genuine_ft800
                0 0x3000 w) as Hio.
  cbn zeta in Hio. specialize (Hio ltac:(lia)).
  change ((0x3000 =? 0)
          || negb ((0x3000 + offsetof_offset (ft80x_h := ft800_h)) mod 4 =? 0)
          || (FT80X_RAM_DL_SIZE (ft80x_h := ft800_h)
              <=? uint32 (umem w (0x3000 + offsetof_offset (ft80x_h := ft800_h)))))
    with false in Hio.
  destruct Hio as (Hret & Hbus & _). split; assumption.
Defined.

(** C3 on the failing input: a genuine FT800 is reported absent. *)
Lemma initialize_always_reports_no_device_witness :
  let init := ft80x_initialize (hdr := ft800_h) genuine_ft800 demo_cfg in
  fst (init (demo_instance 0 false no_words)) = - ENODEV /\
  bus_ops (appended_by init (demo_instance 0 false no_words))
    = [HostCommand 0x44; HostCommand 0x00; ReadWord 0x102400; ReadWord 0x0c0000].
Proof.
  exact (initialize_always_reports_no_device (hdr := ft800_h) genuine_ft800
           demo_cfg (demo_instance 0 false no_words)).
Defined.

(** C9 on the failing input: bring-up of a genuine FT800 writes nothing. *)
Lemma initialize_records_no_register_write_witness :
  let init := ft80x_initialize (hdr := ft800_h) genuine_ft800 demo_cfg in
  existsb is_bus_write (appended_by init (demo_instance 0 false no_words)) = false /\
  frequency (priv (snd (init (demo_instance 0 false no_words)))) = 10000000.
Proof.
  destruct (initialize_records_no_register_write (hdr := ft800_h) genuine_ft800
              demo_cfg (demo_instance 0 false no_words)) as (W & _ & _ & F).
  split; assumption.
Defined.

(** C4 on the failing input: registration on a genuine FT800 fails and
    leaves the instance allocated. *)
Lemma register_failure_keeps_the_instance_witness :
  let reg := ft80x_register (hdr := ft800_h) genuine_ft800 demo_cfg true 0 1
               demo_lower in
  fst (reg boot_world) = - ENODEV /\
  allocated (snd (reg boot_world)) = true /\
  nodes (snd (reg boot_world)) = [].
Proof.
  destruct (register_failure_keeps_the_instance (hdr := ft800_h) genuine_ft800
              demo_cfg 0 1 demo_lower boot_world)
    as (R & N & _ & _ & _ & _ & _ & A).
  repeat split; assumption.
Defined.

(** * Further properties *)

(** ** The lifecycle methods *)

Lemma quiet_lock_section cfg l d :
  forallb (fun e => negb (is_free e)) d = true ->
  destroy_count (l ++ lcdinfo_log cfg ++ d) = destroy_count l.
Proof.
  intros Hd. rewrite !destroy_count_app.
  assert (destroy_count (lcdinfo_log cfg) = 0%nat) as ->
    by (unfold lcdinfo_log; now destruct (CONFIG_DEBUG_LCD_INFO cfg)).
  assert (destroy_count d = 0%nat) as ->; [|lia].
  unfold destroy_count. induction d as [|e d IH]; [reflexivity|]. cbn in *.
  apply andb_prop in Hd as [He Hd]. destruct (is_free e); [discriminate|].
  now apply IH.
Qed.

(** X1: unlink() on an instance without references destroys it in the same
    call: the destroy hook of the lower half is called if there is one,
    then the semaphore is destroyed, then the instance is freed, once,
    with the count at 0 and the flag set; the call returns OK. *)
Theorem unlink_without_references_destroys w :
  crefs (priv w) = 0 ->
  let w' := snd (ft80x_unlink w) in
  fst (ft80x_unlink w) = OK /\
  allocated w' = false /\
  priv w' = with_exclsem None (with_unlinked true (priv w)) /\
  appended_by ft80x_unlink w =
    [Wr Unlinked; Rd Crefs] ++
    (if match lower (priv w) with Some l => destroy l | None => false end
     then [LowerDestroy] else []) ++
    [SemDestroy; KmmFree (with_exclsem None (with_unlinked true (priv w)))] /\
  destroy_count (appended_by ft80x_unlink w) = 1%nat /\
  freed_when_due (appended_by ft80x_unlink w).
Proof.
  intros Hc w'. subst w'. pose proof (unlink_eq w) as E. cbn zeta in E.
  cbn [crefs with_unlinked] in E. rewrite Hc in E. cbn [Z.eqb] in E.
  rewrite (appended_by_after _ _ _ _ _ _ E), E. cbn [fst snd priv allocated after].
  do 3 (split; [reflexivity|]). split; [|split].
  - unfold destroy_log. cbn [lower with_unlinked].
    destruct (lower (priv w)) as [[i o [|]]|]; reflexivity.
  - rewrite destroy_count_app, destroy_log_count. reflexivity.
  - apply freed_when_due_app;
      [now apply freed_when_due_quiet | apply destroy_log_due; [exact Hc | reflexivity]].
Qed.

(** X2: once the node is unlinked, the instance lives exactly as long as
    it has references: of c references, the first c - 1 close() calls
    (lock acquired) only count down and free nothing, and the close() that
    brings the count to 0 frees the instance, once. *)
Theorem last_close_destroys_unlinked cfg rs : forall w,
  unlinked (priv w) = true ->
  Forall (fun r => 0 <= r) rs ->
  crefs (priv w) <= 255 ->
  0 < Z.of_nat (List.length rs) <= crefs (priv w) ->
  let w' := run_calls cfg (map Close rs) w in
  (Z.of_nat (List.length rs) < crefs (priv w) ->
     priv w' = with_crefs (crefs (priv w) - Z.of_nat (List.length rs)) (priv w) /\
     allocated w' = allocated w /\
     destroy_count (log w') = destroy_count (log w)) /\
  (Z.of_nat (List.length rs) = crefs (priv w) ->
     crefs (priv w') = 0 /\ allocated w' = false /\
     destroy_count (log w') = S (destroy_count (log w))).
Proof.
  induction rs as [|r rs IH]; intros w Hu Hrs H8 Hlen; [cbn in Hlen; lia|].
  inversion Hrs as [|? ? Hr Hrs']; subst.
  cbn [map run_calls do_call]. rewrite (close_eq cfg r w Hr). cbn zeta.
  rewrite Hu.
  destruct (Z.leb_spec (crefs (priv w)) 1) as [C|C].
  - (* the last reference: rs is empty *)
    destruct rs as [|r' rs]; [|cbn [List.length] in Hlen; lia].
    cbn [snd map run_calls List.length]. split; [cbn; lia|]. intros _.
    cbn [priv allocated log after with_exclsem with_crefs crefs].
    split; [reflexivity|]. split; [reflexivity|].
    rewrite !destroy_count_app, destroy_log_count.
    assert (destroy_count (lcdinfo_log cfg) = 0%nat) as ->
      by (unfold lcdinfo_log; now destruct (CONFIG_DEBUG_LCD_INFO cfg)).
    cbn. lia.
  - cbn [snd]. rewrite uint8_small by lia.
    set (w1 := after w _ _ _).
    assert (priv w1 = with_crefs (crefs (priv w) - 1) (priv w)) as P1
      by (subst w1; cbn; rewrite relock_id; destruct (priv w); reflexivity).
    assert (destroy_count (log w1) = destroy_count (log w)) as D1
      by (subst w1; cbn [log after]; now apply quiet_lock_section).
    assert (allocated w1 = allocated w) as A1 by reflexivity.
    destruct rs as [|r' rs].
    + cbn [map run_calls List.length]. split; [|cbn; lia]. intros _.
      split; [rewrite P1; reflexivity|]. split; assumption.
    + specialize (IH w1).
      rewrite P1 in IH. cbn [unlinked crefs with_crefs] in IH.
      assert (Z.of_nat (List.length (r :: r' :: rs)) =
              Z.of_nat (List.length (r' :: rs)) + 1) as Hl
        by (cbn [List.length]; lia).
      rewrite Hl in *.
      assert (0 < Z.of_nat (List.length (r' :: rs))) as Hpos
        by (cbn [List.length]; lia).
      specialize (IH Hu Hrs' ltac:(lia) ltac:(lia)).
      destruct IH as [IHlt IHeq].
      split; intros Hk.
      * destruct IHlt as (P & A & D); [lia|].
        rewrite P, A, D, A1, D1.
        split; [|split; reflexivity].
        destruct (priv w); unfold with_crefs;
          cbn [spi lower frequency exclsem crefs unlinked]; f_equal; lia.
      * destruct IHeq as (Cz & A & D); [lia|].
        rewrite D, D1. split; [assumption|]. split; [assumption|reflexivity].
Qed.

(** X3: the reference count saturates and never wraps: after any number
    of open() calls (lock acquired) it is the smaller of the count before
    plus the number of calls and 255; nothing else in the instance
    changes and nothing is freed. *)
Theorem opens_saturate_at_255 cfg rs : forall w,
  Forall (fun r => 0 <= r) rs ->
  0 <= crefs (priv w) <= 255 ->
  let w' := run_calls cfg (map Open rs) w in
  priv w' =
    with_crefs (Z.min (crefs (priv w) + Z.of_nat (List.length rs)) 255) (priv w) /\
  allocated w' = allocated w /\
  destroy_count (log w') = destroy_count (log w).
Proof.
  induction rs as [|r rs IH]; intros w Hrs Hc.
  - cbn [map run_calls List.length Z.of_nat]. rewrite Z.add_0_r, Z.min_l by lia.
    split; [destruct (priv w); reflexivity|]. split; reflexivity.
  - inversion Hrs as [|? ? Hr Hrs']; subst.
    cbn [map run_calls do_call]. rewrite (open_eq cfg r w Hr). cbn zeta.
    rewrite uint8_succ_zero by lia.
    cbn [List.length]. rewrite Nat2Z.inj_succ.
    destruct (Z.eqb_spec (crefs (priv w)) 255) as [E|E]; cbn [snd];
      rewrite ?uint8_small by lia; set (w1 := after w _ _ _).
    + assert (priv w1 = priv w) as P1
        by (subst w1; cbn; now rewrite relock_id, with_exclsem_same).
      assert (destroy_count (log w1) = destroy_count (log w)) as D1
        by (subst w1; cbn [log after]; now apply quiet_lock_section).
      destruct (IH w1) as (P & A & D); [assumption | rewrite P1; lia |].
      rewrite P, A, D, P1, D1.
      split; [f_equal; lia|]. split; reflexivity.
    + assert (priv w1 = with_crefs (crefs (priv w) + 1) (priv w)) as P1
        by (subst w1; cbn; rewrite relock_id; destruct (priv w); reflexivity).
      assert (destroy_count (log w1) = destroy_count (log w)) as D1
        by (subst w1; cbn [log after]; now apply quiet_lock_section).
      destruct (IH w1) as (P & A & D); [assumption | rewrite P1; cbn; lia |].
      rewrite P, A, D, P1, D1.
      split; [|split; reflexivity].
      destruct (priv w); unfold with_crefs;
        cbn [spi lower frequency exclsem crefs unlinked]; f_equal; lia.
Qed.

(** X4: a close() undoes the open() before it: when the open() found room
    (count below 255) and the instance is not an unlinked one without
    references, the instance after the pair is the instance before it,
    and nothing was freed. *)
Theorem open_then_close_restores cfg r1 r2 w :
  0 <= r1 -> 0 <= r2 ->
  0 <= crefs (priv w) < 255 ->
  1 <= crefs (priv w) \/ unlinked (priv w) = false ->
  let w1 := snd (ft80x_open cfg r1 w) in
  let w2 := snd (ft80x_close cfg r2 w1) in
  fst (ft80x_open cfg r1 w) = OK /\ fst (ft80x_close cfg r2 w1) = OK /\
  priv w2 = priv w /\ allocated w2 = allocated w /\
  destroy_count (log w2) = destroy_count (log w).
Proof.
  intros H1 H2 Hc Hu w1 w2. subst w1 w2.
  rewrite (open_eq cfg r1 w H1). cbn zeta.
  rewrite uint8_succ_zero by lia.
  destruct (Z.eqb_spec (crefs (priv w)) 255) as [E|E]; [lia|].
  cbn [fst snd]. rewrite uint8_small by lia.
  rewrite (close_eq cfg r2 _ H2). cbn zeta.
  cbn [priv after crefs unlinked with_exclsem with_crefs].
  destruct (Z.leb_spec (crefs (priv w) + 1) 1) as [C|C].
  - destruct Hu as [Hu|Hu]; [lia|]. rewrite Hu. cbn [fst snd priv allocated after log].
    assert (crefs (priv w) = 0) as Z0 by lia.
    do 2 (split; [reflexivity|]). split; [|split; [reflexivity|]].
    + rewrite !relock_id. destruct (priv w); cbn in *; subst; reflexivity.
    + rewrite quiet_lock_section by reflexivity.
      now apply quiet_lock_section.
  - cbn [fst snd priv allocated after log crefs with_exclsem with_crefs].
    rewrite uint8_small by lia.
    do 2 (split; [reflexivity|]). split; [|split; [reflexivity|]].
    + rewrite !relock_id. destruct (priv w);
        unfold with_exclsem, with_crefs;
        cbn [spi lower frequency exclsem crefs unlinked]; f_equal; lia.
    + rewrite quiet_lock_section by reflexivity.
      now apply quiet_lock_section.
Qed.

(** ** The command dispatcher and bring-up *)

Section DriverMore.

Context {hdr : ft80x_h}.
Variable hw : list event -> Z -> Z.
Variable cfg : config_t.

Lemma ioctl_wait_refused waitret cmd arg w :
  waitret < 0 -> ft80x_ioctl hw waitret cmd arg w = (waitret, w).
Proof.
  intros Hr. unfold ft80x_ioctl, nxsem_wait, bind, ret.
  destruct (Z.ltb_spec waitret 0); [|lia].
  destruct (Z.ltb_spec waitret 0); [reflexivity|lia].
Qed.

Lemma write_wait_refused waitret buffer len w :
  waitret < 0 ->
  ft80x_write waitret buffer len w =
  (if request_refused buffer len then - EINVAL else waitret, w).
Proof.
  intros Hr. unfold request_refused. rewrite <- !land_3_mod_4.
  unfold ft80x_write, nxsem_wait, bind, ret.
  destruct ((buffer =? 0) || negb (Z.land buffer 3 =? 0) || (len =? 0)
            || negb (Z.land len 3 =? 0) || (FT80X_RAM_DL_SIZE <? len));
    [reflexivity|].
  destruct (Z.ltb_spec waitret 0); [|lia].
  destruct (Z.ltb_spec waitret 0); [reflexivity|lia].
Qed.

Lemma gettracker_eq waitret tracker w :
  0 <= waitret ->
  ft80x_ioctl hw waitret FT80XIOC_GETTRACKER tracker w =
  if tracker =? 0 then
    (- EINVAL, after w (with_exclsem (relock (exclsem (priv w))) (priv w))
                 (allocated w) [SemWait; SemPost])
  else
    (OK, set_umem (fun a => if a =? tracker
                            then uint32 (hw (log w ++ [SemWait]) FT80X_REG_TRACKER)
                            else umem w a)
           (after w (with_exclsem (relock (exclsem (priv w))) (priv w))
              (allocated w) [SemWait; ReadWord FT80X_REG_TRACKER; SemPost])).
Proof.
  intros Hr.
  destruct w as [p a m n l]. destruct p as [s lo f e c u]. run_driver.
  destruct (Z.ltb_spec waitret 0); [lia|]. cbn.
  destruct (Z.ltb_spec waitret 0); [lia|]. cbn.
  destruct (tracker =? 0); tidy_log; reflexivity.
Qed.

Lemma unrecognized_eq waitret cmd arg w :
  0 <= waitret ->
  ft80x_ioctl hw waitret (IOC_unrecognized cmd) arg w =
  (- ENOTTY, after w (with_exclsem (relock (exclsem (priv w))) (priv w))
               (allocated w) [SemWait; SemPost]).
Proof.
  intros Hr.
  destruct w as [p a m n l]. destruct p as [s lo f e c u]. run_driver.
  destruct (Z.ltb_spec waitret 0); [lia|]. cbn.
  destruct (Z.ltb_spec waitret 0); [lia|]. tidy_log. reflexivity.
Qed.

(** X5: when the wait for the lock fails, every method gives up with the
    error of the wait and without effect: ioctl (whatever the command and
    its argument) and write leave the world as it is, open and close touch
    nothing but the trace line at entry.  Only write looks at its
    arguments first, so a refused request is answered -EINVAL even then. *)
Theorem failed_wait_changes_nothing waitret w :
  waitret < 0 ->
  (forall cmd arg, ft80x_ioctl hw waitret cmd arg w = (waitret, w)) /\
  (forall buffer len,
     ft80x_write waitret buffer len w =
     (if request_refused buffer len then - EINVAL else waitret, w)) /\
  fst (ft80x_open cfg waitret w) = waitret /\
  fst (ft80x_close cfg waitret w) = waitret /\
  priv (snd (ft80x_open cfg waitret w)) = priv w /\
  priv (snd (ft80x_close cfg waitret w)) = priv w /\
  allocated (snd (ft80x_open cfg waitret w)) = allocated w /\
  allocated (snd (ft80x_close cfg waitret w)) = allocated w /\
  appended_by (ft80x_open cfg waitret) w = lcdinfo_log cfg /\
  appended_by (ft80x_close cfg waitret) w = lcdinfo_log cfg.
Proof.
  intros Hr. destruct (wait_refused cfg waitret w Hr) as [Eo Ec].
  split; [intros; now apply ioctl_wait_refused|].
  split; [intros; now apply write_wait_refused|].
  rewrite (appended_by_after _ _ _ _ _ _ Eo), (appended_by_after _ _ _ _ _ _ Ec).
  rewrite Eo, Ec. cbn [fst snd priv allocated after].
  do 7 (split; [reflexivity|]). reflexivity.
Qed.


(** X7: with the lock acquired, GETTRACKER with a null pointer is refused
    with -EINVAL and reads nothing; otherwise it reads the one word at
    FT80X_REG_TRACKER, stores it (a value below 2^32) where the argument
    points, and returns OK. *)
Theorem gettracker_reads_the_tracker_register waitret tracker w :
  0 <= waitret ->
  let io := ft80x_ioctl hw waitret FT80XIOC_GETTRACKER tracker in
  if tracker =? 0
  then fst (io w) = - EINVAL /\ bus_ops (appended_by io w) = [] /\
       umem (snd (io w)) = umem w
  else fst (io w) = OK /\
       bus_ops (appended_by io w) = [ReadWord FT80X_REG_TRACKER] /\
       umem (snd (io w)) tracker =
         uint32 (hw (log w ++ [SemWait]) FT80X_REG_TRACKER) /\
       0 <= umem (snd (io w)) tracker < 2 ^ 32.
Proof.
  intros Hr io. subst io. pose proof (gettracker_eq waitret tracker w Hr) as E.
  destruct (tracker =? 0).
  - rewrite (appended_by_after _ _ _ _ _ _ E), E. now repeat split.
  - unfold appended_by. rewrite E.
    cbn [fst snd umem set_umem after log].
    rewrite skipn_app, skipn_all, Nat.sub_diag, Z.eqb_refl.
    do 3 (split; [reflexivity|]).
    unfold uint32. apply Z.mod_pos_bound. reflexivity.
Qed.

(** X8: with the lock acquired, a command that is none of the three known
    ones is answered -ENOTTY, whatever its number and argument: nothing is
    sent to the device and caller memory is untouched; the lock is taken
    and given back. *)
Theorem unrecognized_command_is_refused waitret cmd arg w :
  0 <= waitret ->
  let io := ft80x_ioctl hw waitret (IOC_unrecognized cmd) arg in
  fst (io w) = - ENOTTY /\
  appended_by io w = [SemWait; SemPost] /\
  umem (snd (io w)) = umem w.
Proof.
  intros Hr io. subst io. pose proof (unrecognized_eq waitret cmd arg w Hr) as E.
  rewrite (appended_by_after _ _ _ _ _ _ E), E. now repeat split.
Qed.

Lemma register_eq regret spi_dev lower_cfg w :
  exists d,
    ft80x_register hw cfg true regret spi_dev lower_cfg w =
    (- ENODEV,
     after w (with_exclsem None
                (with_frequency (init_frequency lower_cfg)
                   (with_exclsem (Some 1)
                      (with_spi spi_dev (with_lower (Some lower_cfg) zeroed)))))
       true
       ([KmmZalloc; SemInit] ++ wake_log ++ ReadWord FT80X_REG_ID :: d ++ [SemDestroy])) /\
    (d = [] \/ d = [ReadWord FT80X_ROM_CHIPID]).
Proof.
  unfold ft80x_register, kmm_zalloc, sem_init, sem_destroy, emit,
    modify_priv, bind, ret.
  cbn [negb]. rewrite initialize_eq. cbn zeta.
  destruct (negb (Z.land _ ID_MASK =? 124)).
  - exists []. split; [|now left]. destruct w. cbn.
    rewrite <- !app_assoc. reflexivity.
  - exists [ReadWord FT80X_ROM_CHIPID]. split; [|now right].
    destruct w. cbn. rewrite <- !app_assoc. reflexivity.
Qed.

(** X9: ft80x_register never makes the device reachable: whatever
    kmm_zalloc and register_driver would answer, it returns an error
    (-ENOMEM when the allocation fails, leaving the world as it is,
    -ENODEV otherwise), register_driver is not called and the set of nodes
    is what it was. *)
Theorem register_never_creates_a_node zalloc_ok regret spi_dev lower_cfg w :
  let reg := ft80x_register hw cfg zalloc_ok regret spi_dev lower_cfg in
  (if zalloc_ok then fst (reg w) = - ENODEV else reg w = (- ENOMEM, w)) /\
  fst (reg w) < 0 /\
  nodes (snd (reg w)) = nodes w /\
  (forall path, ~ In (RegisterDriver path) (appended_by reg w)).
Proof.
  intros reg. subst reg. destruct zalloc_ok.
  - destruct (register_eq regret spi_dev lower_cfg w) as (d & E & Hd).
    rewrite (appended_by_after _ _ _ _ _ _ E), E. cbn [fst snd nodes after].
    split; [reflexivity|]. split; [reflexivity|]. split; [reflexivity|].
    intros path Hin.
    destruct Hd as [-> | ->]; cbn in Hin; intuition discriminate.
  - assert (ft80x_register hw cfg false regret spi_dev lower_cfg w = (- ENOMEM, w))
      as E by reflexivity.
    rewrite (appended_by_same _ _ _ E), E.
    split; [reflexivity|]. split; [reflexivity|]. split; [reflexivity|].
    intros path [].
Qed.

(** X10: ft80x_initialize releases the power-down line, waits 20 ms and
    sends the host commands CLKEXT and ACTIVE, in this order, before it
    reads anything; what follows are word reads only, two at most.  In
    the instance it changes the frequency alone, to the initial frequency
    of the lower half; caller memory and the name space are untouched. *)
Theorem initialize_wakes_then_reads w :
  let init := ft80x_initialize hw cfg in
  firstn 4 (appended_by init w) =
    [Pwrdown false; Mdelay 20;
     HostCommand FT80X_CMD_CLKEXT; HostCommand FT80X_CMD_ACTIVE] /\
  forallb (fun e => match e with ReadWord _ => true | _ => false end)
    (skipn 4 (appended_by init w)) = true /\
  (List.length (appended_by init w) <= 6)%nat /\
  priv (snd (init w)) = with_frequency (init_frequency_of (priv w)) (priv w) /\
  allocated (snd (init w)) = allocated w /\
  umem (snd (init w)) = umem w /\ nodes (snd (init w)) = nodes w.
Proof.
  intros init. subst init. pose proof (initialize_eq hw cfg w) as E.
  cbn zeta in E.
  destruct (negb (Z.land (chip_id_seen hw w) ID_MASK =? 124));
    rewrite (appended_by_after _ _ _ _ _ _ E), E;
    cbn; do 2 (split; [reflexivity|]); (split; [lia|]);
    do 3 (split; [reflexivity|]); reflexivity.
Qed.

Lemma set_bit_7 x :
  0 <= x < 256 ->
  Z.testbit (Z.lor x (Z.shiftl 1 7)) 7 = true /\
  (forall i, i <> 7 -> Z.testbit (Z.lor x (Z.shiftl 1 7)) i = Z.testbit x i) /\
  0 <= Z.lor x (Z.shiftl 1 7) < 256.
Proof.
  intros Hx. change (Z.shiftl 1 7) with (2 ^ 7).
  split; [|split].
  - rewrite Z.lor_spec, Z.pow2_bits_true by lia. apply orb_true_r.
  - intros i Hi. rewrite Z.lor_spec, Z.pow2_bits_false by lia. apply orb_false_r.
  - assert (0 <= Z.lor x (2 ^ 7)) as Hnn by (apply Z.lor_nonneg; lia).
    split; [assumption|].
    assert (0 < Z.lor x (2 ^ 7)) as Hpos.
    { destruct (Z.eq_dec (Z.lor x (2 ^ 7)) 0) as [E0|]; [|lia].
      apply Z.lor_eq_0_iff in E0 as [_ E0]. discriminate E0. }
    change 256 with (2 ^ 8). apply Z.log2_lt_pow2; [assumption|].
    rewrite Z.log2_lor by lia. change (Z.log2 (2 ^ 7)) with 7.
    destruct (Z.eq_dec x 0) as [->|Hx0]; [reflexivity|].
    assert (Z.log2 x < 8) by (apply Z.log2_lt_pow2; lia). lia.
Qed.

(** X11: the statements that enable the display read the GPIO direction
    register and write it back, then do the same with the GPIO value
    register; each value written is the byte just read with bit 7 set and
    every other bit kept, and it is a byte again. *)
Theorem program_display_sets_gpio_bit_7 w :
  let d := appended_by (program_display hw cfg) w in
  let dir := uint8 (hw (log w ++ firstn 18 d) FT80X_REG_GPIO_DIR) in
  let val := uint8 (hw (log w ++ firstn 20 d) FT80X_REG_GPIO) in
  firstn 4 (skipn 18 d) =
    [ReadByte FT80X_REG_GPIO_DIR;
     WriteByte FT80X_REG_GPIO_DIR (Z.lor dir (Z.shiftl 1 7));
     ReadByte FT80X_REG_GPIO;
     WriteByte FT80X_REG_GPIO (Z.lor val (Z.shiftl 1 7))] /\
  Forall (fun x =>
            Z.testbit (Z.lor x (Z.shiftl 1 7)) 7 = true /\
            (forall i, i <> 7 ->
               Z.testbit (Z.lor x (Z.shiftl 1 7)) i = Z.testbit x i) /\
            0 <= Z.lor x (Z.shiftl 1 7) < 256) [dir; val].
Proof.
  intros d dir val. split.
  - subst dir val d.
    destruct w as [p a m n l]. destruct p as [s lo f e c u].
    unfold appended_by, program_display.
    destruct (display cfg);
      cbv [timing_registers ft80x_write_byte ft80x_write_hword
           ft80x_write_word ft80x_read_byte emit modify_priv bind ret set_log
           set_priv log priv allocated umem nodes fst snd with_frequency
           frequency lower];
      repeat rewrite <- app_assoc;
      rewrite !skipn_app, !skipn_all, !Nat.sub_diag;
      cbn [app skipn firstn]; reflexivity.
  - repeat constructor; apply set_bit_7; apply uint8_range.
Qed.

(** X22: after the identity checks the display is programmed by exactly
    these 23 transport calls, in this order: FT80X_REG_PCLK is written 0;
    the thirteen timing registers are written, the same registers in the
    same order for both displays, with the values of the chosen one; the
    three words of the first display list go to FT80X_RAM_DL + 0, + 4 and
    + 8, and FT80X_REG_DLSWAP is written; FT80X_REG_GPIO_DIR and then
    FT80X_REG_GPIO are read and written back with bit 7 set; and
    FT80X_REG_PCLK is written 5 by the last call.  The routine then
    returns OK with the operating frequency selected, every other field of
    the instance, the ownership of the block, caller memory and the name
    space as they were. *)
Theorem display_programmed_in_order w :
  let d := appended_by (program_display hw cfg) w in
  let dir := uint8 (hw (log w ++ firstn 18 d) FT80X_REG_GPIO_DIR) in
  let val := uint8 (hw (log w ++ firstn 20 d) FT80X_REG_GPIO) in
  let w' := snd (program_display hw cfg w) in
  d = WriteByte FT80X_REG_PCLK 0 ::
      match display cfg with
      | CONFIG_LCD_FT80X_WQVGA =>
          [WriteHword FT80X_REG_HCYCLE 548; WriteHword FT80X_REG_HOFFSET 43;
           WriteHword FT80X_REG_HSYNC0 0; WriteHword FT80X_REG_HSYNC1 41;
           WriteHword FT80X_REG_VCYCLE 292; WriteHword FT80X_REG_VOFFSET 12;
           WriteHword FT80X_REG_VSYNC0 0; WriteHword FT80X_REG_VSYNC1 10;
           WriteByte FT80X_REG_SWIZZLE 0; WriteByte FT80X_REG_PCLK_POL 1;
           WriteByte FT80X_REG_CSPREAD 1;
           WriteHword FT80X_REG_HSIZE 480; WriteHword FT80X_REG_VSIZE 272]
      | CONFIG_LCD_FT80X_QVGA =>
          [WriteHword FT80X_REG_HCYCLE 408; WriteHword FT80X_REG_HOFFSET 70;
           WriteHword FT80X_REG_HSYNC0 0; WriteHword FT80X_REG_HSYNC1 10;
           WriteHword FT80X_REG_VCYCLE 263; WriteHword FT80X_REG_VOFFSET 13;
           WriteHword FT80X_REG_VSYNC0 0; WriteHword FT80X_REG_VSYNC1 2;
           WriteByte FT80X_REG_SWIZZLE 0; WriteByte FT80X_REG_PCLK_POL 0;
           WriteByte FT80X_REG_CSPREAD 1;
           WriteHword FT80X_REG_HSIZE 320; WriteHword FT80X_REG_VSIZE 240]
      end ++
      [WriteWord (FT80X_RAM_DL + 0) (FT80X_CLEAR_COLOR_RGB 0 0 0);
       WriteWord (FT80X_RAM_DL + 4) (FT80X_CLEAR 1 1 1);
       WriteWord (FT80X_RAM_DL + 8) FT80X_DISPLAY;
       WriteByte FT80X_REG_DLSWAP DLSWAP_FRAME;
       ReadByte FT80X_REG_GPIO_DIR;
       WriteByte FT80X_REG_GPIO_DIR (Z.lor dir (Z.shiftl 1 7));
       ReadByte FT80X_REG_GPIO;
       WriteByte FT80X_REG_GPIO (Z.lor val (Z.shiftl 1 7));
       WriteByte FT80X_REG_PCLK 5] /\
  map written_register (firstn 13 (skipn 1 d)) =
    map Some
      [FT80X_REG_HCYCLE; FT80X_REG_HOFFSET; FT80X_REG_HSYNC0; FT80X_REG_HSYNC1;
       FT80X_REG_VCYCLE; FT80X_REG_VOFFSET; FT80X_REG_VSYNC0; FT80X_REG_VSYNC1;
       FT80X_REG_SWIZZLE; FT80X_REG_PCLK_POL; FT80X_REG_CSPREAD;
       FT80X_REG_HSIZE; FT80X_REG_VSIZE] /\
  fst (program_display hw cfg w) = OK /\
  priv w' =
    with_frequency
      (match lower (priv w) with Some l => op_frequency l | None => 0 end)
      (priv w) /\
  allocated w' = allocated w /\ umem w' = umem w /\ nodes w' = nodes w.
Proof.
  intros d dir val w'. subst dir val d w'.
  destruct w as [p a m n l]. destruct p as [s lo f e c u].
  unfold appended_by, program_display.
  destruct (display cfg);
    cbv [timing_registers ft80x_write_byte ft80x_write_hword
         ft80x_write_word ft80x_read_byte emit modify_priv bind ret set_log
         set_priv log priv allocated umem nodes fst snd with_frequency
         frequency lower spi exclsem crefs unlinked];
    repeat rewrite <- app_assoc;
    rewrite !skipn_app, !skipn_all, !Nat.sub_diag;
    cbn [app skipn firstn map written_register];
    (split; [reflexivity|]); (split; [reflexivity|]);
    (split; [reflexivity|]); (split; [reflexivity|]);
    (split; [reflexivity|]); split; reflexivity.
Qed.

End DriverMore.

(** ** Pipe numbers *)

Lemma pipe_mask_pow2 n : 0 <= n < 32 -> pipe_mask n = 2 ^ n.
Proof.
  intros Hn. unfold pipe_mask, uint32. rewrite Z.shiftl_1_l.
  apply Z.mod_small. split; [apply Z.pow_nonneg; lia|].
  apply Z.pow_lt_mono_r; lia.
Qed.

Lemma land_pow2_eqb g n :
  0 <= n -> (Z.land g (2 ^ n) =? 0) = negb (Z.testbit g n).
Proof.
  intros Hn. destruct (Z.testbit g n) eqn:B; cbn.
  - apply Z.eqb_neq. intros E.
    assert (Z.testbit (Z.land g (2 ^ n)) n = true) as T
      by (rewrite Z.land_spec, B, Z.pow2_bits_true by lia; reflexivity).
    rewrite E, Z.bits_0 in T. discriminate.
  - apply Z.eqb_eq. apply Z.bits_inj'. intros i Hi.
    rewrite Z.land_spec, Z.bits_0.
    destruct (Z.eq_dec n i) as [<-|N].
    + now rewrite B.
    + rewrite Z.pow2_bits_false by assumption. apply andb_false_r.
Qed.

Lemma uint32_bits_high g i : 0 <= g < 2 ^ 32 -> 32 <= i -> Z.testbit g i = false.
Proof.
  intros Hg Hi. rewrite <- (Z.mod_small g (2 ^ 32)) by assumption.
  apply Z.mod_pow2_bits_high. lia.
Qed.

Lemma land_unmask g n :
  0 <= g < 2 ^ 32 -> 0 <= n < 32 ->
  Z.land g (pipe_unmask n) = Z.clearbit g n.
Proof.
  intros Hg Hn. apply Z.bits_inj'. intros i Hi.
  rewrite Z.land_spec, Z.clearbit_eqb. unfold pipe_unmask, uint32.
  rewrite Z.testbit_mod_pow2 by lia.
  rewrite Z.lnot_spec, Z.shiftl_1_l by assumption.
  destruct (Z.ltb_spec i 32) as [L|L].
  - cbn [andb]. f_equal. now rewrite Z.pow2_bits_eqb by lia.
  - rewrite (uint32_bits_high g i Hg L). reflexivity.
Qed.

Lemma setbit_uint32 g n :
  0 <= g < 2 ^ 32 -> 0 <= n < 32 -> 0 <= Z.setbit g n < 2 ^ 32.
Proof.
  intros Hg Hn.
  assert (0 <= Z.setbit g n) as Hnn
    by (rewrite Z.setbit_spec'; apply Z.lor_nonneg; split; [lia | apply Z.pow_nonneg; lia]).
  split; [assumption|].
  assert (Z.setbit g n = Z.setbit g n mod 2 ^ 32) as ->; [|apply Z.mod_pos_bound; lia].
  apply Z.bits_inj'. intros i Hi. rewrite Z.testbit_mod_pow2 by lia.
  destruct (Z.ltb_spec i 32) as [L|L]; [reflexivity|].
  rewrite Z.setbit_neq by lia. rewrite (uint32_bits_high g i Hg L). reflexivity.
Qed.

Lemma pipe_allocate_loop_spec n : forall p st,
  0 <= p -> p + Z.of_nat n = 32 ->
  (forall i, 0 <= i < p -> Z.testbit (g_pipeset st) i = true) ->
  let r := fst (pipe_allocate_loop n p st) in
  let st' := snd (pipe_allocate_loop n p st) in
  (r = - ENFILE /\ st' = st /\
   forall i, 0 <= i < 32 -> Z.testbit (g_pipeset st) i = true) \/
  (p <= r < 32 /\ Z.testbit (g_pipeset st) r = false /\
   (forall i, 0 <= i < r -> Z.testbit (g_pipeset st) i = true) /\
   st' = set_pipeset (Z.setbit (g_pipeset st) r) st).
Proof.
  induction n as [|n IH]; intros p st Hp Hn Hlow; cbn [pipe_allocate_loop].
  - left. cbn [fst snd]. repeat split. intros i Hi. apply Hlow. lia.
  - rewrite pipe_mask_pow2, land_pow2_eqb by lia.
    destruct (Z.testbit (g_pipeset st) p) eqn:B; cbn [negb].
    + assert (forall i, 0 <= i < p + 1 -> Z.testbit (g_pipeset st) i = true)
        as Hlow'.
      { intros i Hi. destruct (Z.eq_dec i p) as [->|N]; [assumption|].
        apply Hlow. lia. }
      destruct (IH (p + 1) st ltac:(lia) ltac:(lia) Hlow') as [H1|H2].
      * now left.
      * right. destruct H2 as (R & T & L & E).
        repeat split; try assumption; lia.
    + right. cbn [fst snd]. rewrite <- Z.setbit_spec'.
      repeat split; try assumption; lia.
Qed.

(** X12: pipe_allocate hands out the lowest free pipe number: either
    every number from 0 to 31 is taken, and it returns -ENFILE and changes
    nothing, or it returns a number below 32 that was free while all
    smaller ones were taken, and marks this number, and nothing else, as
    taken. *)
Theorem pipe_allocate_takes_lowest_free st :
  let r := fst (pipe_allocate st) in
  let st' := snd (pipe_allocate st) in
  (r = - ENFILE /\ st' = st /\
   forall i, 0 <= i < 32 -> Z.testbit (g_pipeset st) i = true) \/
  (0 <= r < 32 /\ Z.testbit (g_pipeset st) r = false /\
   (forall i, 0 <= i < r -> Z.testbit (g_pipeset st) i = true) /\
   st' = set_pipeset (Z.setbit (g_pipeset st) r) st).
Proof.
  apply (pipe_allocate_loop_spec (Z.to_nat MAX_PIPES) 0 st); [lia | reflexivity |].
  intros i Hi. lia.
Qed.

Lemma all_taken_iff g :
  0 <= g < 2 ^ 32 ->
  (forall i, 0 <= i < 32 -> Z.testbit g i = true) <-> g = 2 ^ 32 - 1.
Proof.
  intros Hg. change (2 ^ 32 - 1) with (Z.ones 32). split.
  - intros Hall. apply Z.bits_inj'. intros i Hi.
    destruct (Z.ltb_spec i 32) as [L|L].
    + rewrite Z.ones_spec_low by lia. apply Hall. lia.
    + rewrite Z.ones_spec_high by lia. now apply uint32_bits_high.
  - intros -> i Hi. apply Z.ones_spec_low. lia.
Qed.

(** X13: pipe_allocate fails exactly when all 32 pipe numbers are taken
    (g_pipeset == 0xffffffff); otherwise its result is a pipe number from
    0 to 31.  In both cases g_pipeset stays a 32-bit value. *)
Theorem pipe_allocate_fails_iff_full st :
  0 <= g_pipeset st < 2 ^ 32 ->
  (fst (pipe_allocate st) = - ENFILE <-> g_pipeset st = 2 ^ 32 - 1) /\
  (g_pipeset st <> 2 ^ 32 - 1 -> 0 <= fst (pipe_allocate st) < 32) /\
  0 <= g_pipeset (snd (pipe_allocate st)) < 2 ^ 32.
Proof.
  intros Hg.
  destruct (pipe_allocate_takes_lowest_free st) as [(R & S' & Hall)|(R & T & L & S')].
  - apply (proj1 (all_taken_iff _ Hg)) in Hall. rewrite R, S'.
    split; [tauto|]. split; [congruence | assumption].
  - assert (g_pipeset st <> 2 ^ 32 - 1) as Hnf.
    { intros F. apply (proj2 (all_taken_iff _ Hg)) with (i := fst (pipe_allocate st)) in F;
        [|exact R]. rewrite F in T. discriminate. }
    split; [|split].
    + unfold ENFILE. split; [lia | intros F; contradiction].
    + intros _. exact R.
    + rewrite S'. cbn [g_pipeset set_pipeset]. now apply setbit_uint32.
Qed.

Lemma clear_after_set g r :
  Z.testbit g r = false -> Z.clearbit (Z.setbit g r) r = g.
Proof.
  intros T. apply Z.bits_inj'. intros i Hi. rewrite Z.clearbit_eqb.
  destruct (Z.eqb_spec r i) as [<-|N]; cbn [negb].
  - now rewrite andb_false_r, T.
  - destruct (Z_lt_le_dec r 0) as [Neg|Pos].
    + rewrite Z.setbit_spec', Z.pow_neg_r, Z.lor_0_r by assumption.
      apply andb_true_r.
    + rewrite Z.setbit_neq by assumption. apply andb_true_r.
Qed.

Lemma pipe_free_ok_eq n st :
  0 <= g_pipeset st < 2 ^ 32 -> 0 <= n < 32 ->
  pipe_free OK n st = set_pipeset (Z.clearbit (g_pipeset st) n) st.
Proof.
  intros Hg Hn. unfold pipe_free, pipesem_take, pipesem_post. cbn [Z.eqb OK].
  destruct st as [sem set created devs nds].
  unfold set_pipeset, set_pipesem; cbn [g_pipesem g_pipeset g_pipecreated pipe_devs pipe_nodes] in *.
  rewrite land_unmask by assumption. f_equal. lia.
Qed.

(** X14: pipe_free undoes pipe_allocate: when pipe_allocate handed out a
    number and the wait for g_pipesem succeeds, pipe_free of this number
    brings back the state before the allocation, the semaphore count
    included.  When the wait fails, pipe_free changes nothing: the number
    stays taken. *)
Theorem pipe_free_undoes_pipe_allocate waitret st :
  0 <= g_pipeset st < 2 ^ 32 ->
  0 <= fst (pipe_allocate st) ->
  let r := fst (pipe_allocate st) in
  let st' := snd (pipe_allocate st) in
  pipe_free OK r st' = st /\
  (waitret <> OK ->
     pipe_free waitret r st' = st' /\ Z.testbit (g_pipeset st') r = true).
Proof.
  intros Hg Hr r st'. subst r st'.
  destruct (pipe_allocate_takes_lowest_free st) as [(R & _)|(R & T & L & S')];
    [unfold ENFILE in R; lia|].
  rewrite S'. split.
  - rewrite pipe_free_ok_eq; [| cbn; now apply setbit_uint32 | assumption].
    cbn [g_pipeset set_pipeset]. rewrite clear_after_set by assumption.
    destruct st; reflexivity.
  - intros Hw. unfold pipe_free.
    destruct (Z.eqb_spec waitret OK); [contradiction|].
    split; [reflexivity|]. cbn [g_pipeset set_pipeset].
    apply Z.setbit_eq. lia.
Qed.

(** X15: a pipe number that was given back is handed out again, lowest
    first: after pipe_free of n (the wait succeeding), pipe_allocate does
    not fail and returns a number from 0 to n. *)
Theorem freed_number_is_reused n st :
  0 <= g_pipeset st < 2 ^ 32 -> 0 <= n < 32 ->
  0 <= fst (pipe_allocate (pipe_free OK n st)) <= n.
Proof.
  intros Hg Hn. rewrite pipe_free_ok_eq by assumption.
  set (st1 := set_pipeset _ st).
  assert (Z.testbit (g_pipeset st1) n = false) as Tn
    by (subst st1; cbn; apply Z.clearbit_eq).
  destruct (pipe_allocate_takes_lowest_free st1) as [(_ & _ & Hall)|(R & T & L & _)].
  - rewrite Hall in Tn by assumption. discriminate.
  - split; [lia|]. destruct (Z_lt_le_dec n (fst (pipe_allocate st1))) as [Lt|Le]; [|assumption].
    rewrite L in Tn by lia. discriminate.
Qed.

(** ** Pipe devices *)

Lemma pipe_allocate_loop_sem n v : forall p st,
  pipe_allocate_loop n p (set_pipesem v st) =
  (fst (pipe_allocate_loop n p st), set_pipesem v (snd (pipe_allocate_loop n p st))).
Proof.
  induction n as [|n IH]; intros p st; cbn [pipe_allocate_loop]; [reflexivity|].
  cbn [g_pipeset set_pipesem].
  destruct (Z.land (g_pipeset st) (pipe_mask p) =? 0); [reflexivity|].
  apply IH.
Qed.

Lemma pipe_number_cases n :
  0 <= n < 32 -> In n (map Z.of_nat (seq 0 32)).
Proof.
  intros Hn. apply in_map_iff. exists (Z.to_nat n). split; [lia|].
  apply in_seq. lia.
Qed.

Lemma pipe_names_checked :
  forallb (fun a =>
    String.eqb (snprintf_devname 16 a) (pipe_name a) &&
    (String.length (snprintf_devname 16 a) <=? 11)%nat &&
    forallb (fun b =>
      implb (String.eqb (snprintf_devname 16 a) (snprintf_devname 16 b))
            (a =? b))
      (map Z.of_nat (seq 0 32)))
    (map Z.of_nat (seq 0 32)) = true.
Proof. vm_compute. reflexivity. Qed.

Lemma snprintf_devname_16 n : 0 <= n < 32 -> snprintf_devname 16 n = pipe_name n.
Proof.
  intros Hn. pose proof pipe_names_checked as Hall.
  rewrite forallb_forall in Hall.
  specialize (Hall n (pipe_number_cases n Hn)).
  apply andb_prop in Hall as [Hall _]. apply andb_prop in Hall as [Hfit _].
  now apply String.eqb_eq.
Qed.

(** X16: with the 16-byte name buffer that both callers of pipe_register
    pass, the name of every pipe number from 0 to 31 is "/dev/pipe"
    followed by the number in decimal, untruncated (11 characters at
    most), and different numbers get different names. *)
Theorem pipe_names_fit_and_differ n m :
  0 <= n < 32 -> 0 <= m < 32 ->
  snprintf_devname 16 n = pipe_name n /\
  (String.length (snprintf_devname 16 n) <= 11)%nat /\
  (snprintf_devname 16 n = snprintf_devname 16 m -> n = m).
Proof.
  intros Hn Hm. pose proof pipe_names_checked as Hall.
  rewrite forallb_forall in Hall.
  specialize (Hall n (pipe_number_cases n Hn)).
  apply andb_prop in Hall as [Hall Hinj]. apply andb_prop in Hall as [Hfit Hlen].
  split; [now apply String.eqb_eq|]. split; [now apply Nat.leb_le|].
  intros E. rewrite forallb_forall in Hinj.
  specialize (Hinj m (pipe_number_cases m Hm)).
  apply (proj2 (String.eqb_eq _ _)) in E. rewrite E in Hinj.
  cbn in Hinj. now apply Z.eqb_eq.
Qed.

Lemma pipe_register_locked waitret allocdev_ok regret freewait namesize st :
  0 <= waitret ->
  0 <= fst (pipe_allocate st) ->
  let r := fst (pipe_allocate st) in
  let st1 := set_pipeset (Z.setbit (g_pipeset st) r) (pipesem_take st) in
  let devname := snprintf_devname namesize r in
  pipe_register waitret allocdev_ok regret freewait namesize st =
  if negb (Z.testbit (g_pipecreated st) r) then
    if negb allocdev_ok then
      (- ENOMEM, Some devname, pipesem_post (pipe_free freewait r st1))
    else if negb (regret =? 0) then
      (regret, Some devname,
       pipesem_post (pipe_free freewait r (pipesem_post st1)))
    else
      (OK, Some devname,
       pipesem_post
         (set_pipecreated (Z.setbit (g_pipecreated st) r)
            (set_pipe_nodes (devname :: pipe_nodes st)
               (set_pipe_devs (r :: pipe_devs st) st1))))
  else (OK, Some devname, pipesem_post st1).
Proof.
  intros Hw Hr r st1 devname. unfold pipe_register.
  destruct (Z.ltb_spec waitret 0); [lia|].
  unfold pipesem_take at 1. unfold pipe_allocate.
  rewrite pipe_allocate_loop_sem. fold (pipe_allocate st).
  destruct (pipe_allocate_takes_lowest_free st) as [(R & _)|(R & T & L & S')];
    [unfold ENFILE in R; lia|].
  fold r in R, S'. fold r. rewrite S'.
  destruct (Z.ltb_spec r 0); [lia|].
  cbn [g_pipecreated set_pipesem set_pipeset].
  rewrite pipe_mask_pow2, land_pow2_eqb by lia.
  fold devname.
  destruct (Z.testbit (g_pipecreated st) r); cbn [negb].
  - subst st1. destruct st; reflexivity.
  - destruct allocdev_ok; cbn [negb].
    + destruct (regret =? 0); cbn [negb].
      * subst st1. rewrite <- Z.setbit_spec'. destruct st; reflexivity.
      * subst st1. destruct st; reflexivity.
    + subst st1. destruct st; reflexivity.
Qed.

Lemma pipe_state_eta st :
  {| g_pipesem := g_pipesem st; g_pipeset := g_pipeset st;
     g_pipecreated := g_pipecreated st; pipe_devs := pipe_devs st;
     pipe_nodes := pipe_nodes st |} = st.
Proof. destruct st; reflexivity. Qed.

(** X17: when the lock is acquired, a pipe number r is free, no device
    exists yet for it, pipecommon_allocdev and register_driver succeed,
    then pipe_register returns OK with the name "/dev/pipe<r>", r being
    the lowest free number; r is marked taken and created, one device
    with d_pipeno r and one node of that name are added, and the
    semaphore is back at its count. *)
Theorem pipe_register_creates_device waitret freewait st :
  0 <= waitret ->
  0 <= fst (pipe_allocate st) ->
  Z.testbit (g_pipecreated st) (fst (pipe_allocate st)) = false ->
  let r := fst (pipe_allocate st) in
  pipe_register waitret true 0 freewait 16 st =
  (OK, Some (pipe_name r),
   {| g_pipesem := g_pipesem st;
      g_pipeset := Z.setbit (g_pipeset st) r;
      g_pipecreated := Z.setbit (g_pipecreated st) r;
      pipe_devs := r :: pipe_devs st;
      pipe_nodes := pipe_name r :: pipe_nodes st |}).
Proof.
  intros Hw Hr Hc r.
  rewrite (pipe_register_locked _ _ _ _ _ _ Hw Hr). cbn zeta. fold r.
  fold r in Hc. rewrite Hc. cbn [negb Z.eqb].
  destruct (pipe_allocate_takes_lowest_free st) as [(R & _)|(R & _)];
    [unfold ENFILE in R; fold r in R; lia|].
  fold r in R. rewrite snprintf_devname_16 by assumption.
  unfold pipesem_post, pipesem_take, set_pipecreated, set_pipe_nodes,
    set_pipe_devs, set_pipeset, set_pipesem.
  cbn [g_pipesem g_pipeset g_pipecreated pipe_devs pipe_nodes].
  do 3 f_equal. lia.
Qed.

(** X18: when the device of the pipe number handed out was created
    before, pipe_register reuses it: it returns OK with the name, marks
    the number taken and touches nothing else; pipecommon_allocdev and
    register_driver are not asked, whatever they would answer. *)
Theorem pipe_register_reuses_device waitret allocdev_ok regret freewait st :
  0 <= waitret ->
  0 <= fst (pipe_allocate st) ->
  Z.testbit (g_pipecreated st) (fst (pipe_allocate st)) = true ->
  let r := fst (pipe_allocate st) in
  pipe_register waitret allocdev_ok regret freewait 16 st =
  (OK, Some (pipe_name r), set_pipeset (Z.setbit (g_pipeset st) r) st).
Proof.
  intros Hw Hr Hc r.
  rewrite (pipe_register_locked _ _ _ _ _ _ Hw Hr). cbn zeta. fold r.
  fold r in Hc. rewrite Hc. cbn [negb].
  destruct (pipe_allocate_takes_lowest_free st) as [(R & _)|(R & _)];
    [unfold ENFILE in R; fold r in R; lia|].
  fold r in R. rewrite snprintf_devname_16 by assumption.
  unfold pipesem_post, pipesem_take, set_pipeset, set_pipesem.
  cbn [g_pipesem g_pipeset g_pipecreated pipe_devs pipe_nodes].
  do 3 f_equal. lia.
Qed.

(** X19: pipe_register fails without a trace when it cannot get the lock
    and when no pipe number is free: it returns the error of the wait, or
    -ENFILE, writes no name, and every variable, the semaphore count
    included, is what it was. *)
Theorem pipe_register_fails_cleanly waitret allocdev_ok regret freewait namesize st :
  (waitret < 0 ->
     pipe_register waitret allocdev_ok regret freewait namesize st =
     (waitret, None, st)) /\
  (0 <= waitret -> 0 <= g_pipeset st < 2 ^ 32 -> g_pipeset st = 2 ^ 32 - 1 ->
     pipe_register waitret allocdev_ok regret freewait namesize st =
     (- ENFILE, None, st)).
Proof.
  split.
  - intros Hw. unfold pipe_register.
    destruct (Z.ltb_spec waitret 0); [reflexivity | lia].
  - intros Hw Hg Hfull. unfold pipe_register.
    destruct (Z.ltb_spec waitret 0); [lia|].
    unfold pipesem_take at 1. unfold pipe_allocate.
    rewrite pipe_allocate_loop_sem. fold (pipe_allocate st).
    destruct (pipe_allocate_takes_lowest_free st) as [(R & S' & _)|(R & T & _)].
    + rewrite R, S'. cbn [Z.ltb Z.compare Z.opp ENFILE].
      unfold pipesem_post, set_pipesem.
      cbn [g_pipesem g_pipeset g_pipecreated pipe_devs pipe_nodes].
      rewrite <- (pipe_state_eta st) at 6. do 2 f_equal. lia.
    + apply (proj2 (all_taken_iff _ Hg)) with (i := fst (pipe_allocate st)) in Hfull;
        [|exact R]. rewrite Hfull in T. discriminate.
Qed.

(** X20: when register_driver refuses the new device, pipe_register
    returns its error; the device is freed and the pipe number given back
    (pipe_free finds the semaphore posted), no node is added and nothing
    is marked created, but the semaphore has then been posted once more
    than it was taken: its count is one above the count before. *)
Theorem pipe_register_driver_refused waitret regret st :
  0 <= waitret ->
  0 <= g_pipeset st < 2 ^ 32 ->
  0 <= fst (pipe_allocate st) ->
  Z.testbit (g_pipecreated st) (fst (pipe_allocate st)) = false ->
  regret <> 0 ->
  pipe_register waitret true regret OK 16 st =
  (regret, Some (pipe_name (fst (pipe_allocate st))),
   set_pipesem (g_pipesem st + 1) st).
Proof.
  intros Hw Hg Hr Hc Hreg.
  rewrite (pipe_register_locked _ _ _ _ _ _ Hw Hr). cbn zeta.
  rewrite Hc. cbn [negb].
  destruct (Z.eqb_spec regret 0); [contradiction|]. cbn [negb].
  destruct (pipe_allocate_takes_lowest_free st) as [(R & _)|(R & T & _)];
    [unfold ENFILE in R; lia|].
  rewrite snprintf_devname_16 by assumption.
  rewrite pipe_free_ok_eq;
    [| cbn; now apply setbit_uint32 | assumption].
  cbn [g_pipeset set_pipeset pipesem_post pipesem_take set_pipesem].
  rewrite clear_after_set by assumption.
  unfold pipesem_post, pipesem_take, set_pipeset, set_pipesem.
  cbn [g_pipesem g_pipeset g_pipecreated pipe_devs pipe_nodes].
  do 3 f_equal. lia.
Qed.


(** ** Concrete runs of the further properties *)

Lemma unlink_without_references_destroys_witness :
  allocated (snd (ft80x_unlink (demo_instance 0 false no_words))) = false /\
  appended_by ft80x_unlink (demo_instance 0 false no_words) =
    [Wr Unlinked; Rd Crefs; LowerDestroy; SemDestroy;
     KmmFree (with_exclsem None
                (with_unlinked true (priv (demo_instance 0 false no_words))))].
Proof.
  destruct (unlink_without_references_destroys (demo_instance 0 false no_words))
    as (_ & A & _ & L & _); [reflexivity|].
  split; [exact A | exact L].
Defined.

Lemma last_close_destroys_unlinked_witness :
  allocated (run_calls demo_cfg (map Close [0; 0])
               (demo_instance 3 true no_words)) = true /\
  allocated (run_calls demo_cfg (map Close [0; 0; 0])
               (demo_instance 3 true no_words)) = false.
Proof.
  destruct (last_close_destroys_unlinked demo_cfg [0; 0]
              (demo_instance 3 true no_words)) as (Hlive & _).
  - reflexivity.
  - repeat constructor; lia.
  - cbn; lia.
  - cbn; lia.
  - destruct (last_close_destroys_unlinked demo_cfg [0; 0; 0]
                (demo_instance 3 true no_words)) as (_ & Hgone).
    + reflexivity.
    + repeat constructor; lia.
    + cbn; lia.
    + cbn; lia.
    + destruct Hlive as (_ & A & _); [cbn; lia|].
      destruct Hgone as (_ & A' & _); [reflexivity|].
      split; [exact A | exact A'].
Defined.

Lemma opens_saturate_at_255_witness :
  crefs (priv (run_calls demo_cfg (map Open [0; 0; 0])
                 (demo_instance 254 false no_words))) = 255.
Proof.
  destruct (opens_saturate_at_255 demo_cfg [0; 0; 0]
              (demo_instance 254 false no_words)) as (P & _).
  - repeat constructor; lia.
  - cbn; lia.
  - rewrite P. reflexivity.
Defined.

Lemma open_then_close_restores_witness :
  priv (snd (ft80x_close demo_cfg 0
               (snd (ft80x_open demo_cfg 0 (demo_instance 0 false no_words)))))
    = priv (demo_instance 0 false no_words).
Proof.
  destruct (open_then_close_restores demo_cfg 0 0 (demo_instance 0 false no_words))
    as (_ & _ & P & _); [lia | lia | cbn; lia | right; reflexivity |].
  exact P.
Defined.

Lemma failed_wait_changes_nothing_witness :
  ft80x_ioctl (hdr := ft800_h) genuine_ft800 (-4) FT80XIOC_GETTRACKER 0x3000
    (demo_instance 1 false no_words)
    = (-4, demo_instance 1 false no_words) /\
  fst (ft80x_open demo_cfg (-4) (demo_instance 1 false no_words)) = -4.
Proof.
  destruct (failed_wait_changes_nothing (hdr := ft800_h) genuine_ft800 demo_cfg
              (-4) (demo_instance 1 false no_words)) as (Hio & _ & Ho & _); [lia|].
  split; [apply Hio | exact Ho].
Defined.

Lemma gettracker_reads_the_tracker_register_witness :
  let io := ft80x_ioctl (hdr := ft800_h) genuine_ft800 0 FT80XIOC_GETTRACKER 0x3000 in
  fst (io (demo_instance 1 false no_words)) = OK /\
  bus_ops (appended_by io (demo_instance 1 false no_words)) = [ReadWord 0x109000] /\
  umem (snd (io (demo_instance 1 false no_words))) 0x3000 = 0x55aa55aa.
Proof.
  intros io.
  pose proof (gettracker_reads_the_tracker_register (hdr := ft800_h) genuine_ft800
                0 0x3000 (demo_instance 1 false no_words) ltac:(lia)) as Hio.
  cbn zeta in Hio. change (0x3000 =? 0) with false in Hio.
  destruct Hio as (R & B & V & _).
  subst io. split; [exact R|]. split; [exact B|]. rewrite V.
  vm_compute. reflexivity.
Defined.

Lemma unrecognized_command_is_refused_witness :
  fst (ft80x_ioctl (hdr := ft800_h) genuine_ft800 0 (IOC_unrecognized 99) 0
         (demo_instance 1 false no_words)) = - ENOTTY.
Proof.
  destruct (unrecognized_command_is_refused (hdr := ft800_h) genuine_ft800
              0 99 0 (demo_instance 1 false no_words)) as (R & _); [lia|].
  exact R.
Defined.

Lemma pipe_allocate_fails_iff_full_witness :
  fst (pipe_allocate demo_pipes_full) = - ENFILE /\
  0 <= fst (pipe_allocate demo_pipes) < 32.
Proof.
  destruct (pipe_allocate_fails_iff_full demo_pipes_full) as (Hfull & _);
    [cbn; lia|].
  destruct (pipe_allocate_fails_iff_full demo_pipes) as (_ & Hfree & _);
    [cbn; lia|].
  split; [apply Hfull; reflexivity | apply Hfree; discriminate].
Defined.

Lemma pipe_free_undoes_pipe_allocate_witness :
  pipe_free OK (fst (pipe_allocate demo_pipes)) (snd (pipe_allocate demo_pipes))
    = demo_pipes.
Proof.
  destruct (pipe_free_undoes_pipe_allocate (-4) demo_pipes) as (Hback & _);
    [cbn; lia | vm_compute; discriminate |].
  exact Hback.
Defined.

Lemma freed_number_is_reused_witness :
  0 <= fst (pipe_allocate (pipe_free OK 1 demo_pipes)) <= 1.
Proof. apply freed_number_is_reused; cbn; lia. Defined.

Lemma pipe_names_fit_and_differ_witness :
  snprintf_devname 16 31 = "/dev/pipe31"%string /\
  (snprintf_devname 16 3 = snprintf_devname 16 30 -> 3 = 30).
Proof.
  destruct (pipe_names_fit_and_differ 31 31) as (N & _); [lia | lia |].
  destruct (pipe_names_fit_and_differ 3 30) as (_ & _ & I); [lia | lia |].
  split; [exact N | exact I].
Defined.

Lemma pipe_register_creates_device_witness :
  pipe_register 0 true 0 OK 16
    {| g_pipesem := 1; g_pipeset := 7; g_pipecreated := 7;
       pipe_devs := [2; 1; 0];
       pipe_nodes := ["/dev/pipe2"; "/dev/pipe1"; "/dev/pipe0"]%string |}
  = (OK, Some "/dev/pipe3"%string,
     {| g_pipesem := 1; g_pipeset := 15; g_pipecreated := 15;
        pipe_devs := [3; 2; 1; 0];
        pipe_nodes := ["/dev/pipe3"; "/dev/pipe2"; "/dev/pipe1"; "/dev/pipe0"]%string |}).
Proof.
  exact (pipe_register_creates_device 0 OK demo_pipes
           ltac:(lia) ltac:(vm_compute; discriminate) ltac:(reflexivity)).
Defined.

Lemma pipe_register_reuses_device_witness :
  pipe_register 0 false (-1) OK 16 demo_pipes_reuse
  = (OK, Some "/dev/pipe1"%string, demo_pipes).
Proof.
  exact (pipe_register_reuses_device 0 false (-1) OK demo_pipes_reuse
           ltac:(lia) ltac:(vm_compute; discriminate) ltac:(reflexivity)).
Defined.

Lemma pipe_register_fails_cleanly_witness :
  pipe_register (-4) true 0 OK 16 demo_pipes = (-4, None, demo_pipes) /\
  pipe_register 0 true 0 OK 16 demo_pipes_full = (- ENFILE, None, demo_pipes_full).
Proof.
  destruct (pipe_register_fails_cleanly (-4) true 0 OK 16 demo_pipes) as (Hw & _).
  destruct (pipe_register_fails_cleanly 0 true 0 OK 16 demo_pipes_full) as (_ & Hf).
  split; [apply Hw; lia | apply Hf; [lia | cbn; lia | reflexivity]].
Defined.

Lemma pipe_register_driver_refused_witness :
  pipe_register 0 true (-17) OK 16 demo_pipes
  = (-17, Some "/dev/pipe3"%string, set_pipesem 2 demo_pipes).
Proof.
  exact (pipe_register_driver_refused 0 (-17) demo_pipes
           ltac:(lia) ltac:(cbn; lia) ltac:(vm_compute; discriminate)
           ltac:(reflexivity) ltac:(discriminate)).
Defined.

